(** * examples/contrib/graph_lottery_ticket.py

    A shallow embedding of the graph-lottery-ticket example script and the
    properties its specification states about it.

    The script is glue over three libraries (argparse, torch, torch_geometric).
    Every call into them is an _event_: an oracle (the [framework]) decides
    what the call returns or raises, and the run keeps a log of the calls in
    program order.  What the script itself computes (string tests, list
    arithmetic, the best-score bookkeeping, which object is handed to which
    call) is modelled as the code has it.  Parameter tensors live in a store
    addressed by location, because [baseline] reads and writes them through
    several references.  Scores are Python floats, NaN included, and which
    option argparse takes an argument string for is modelled after its
    source (CPython 3.11). *)

From Stdlib Require Import ZArith QArith String Ascii List.
From stdpp Require Import gmap strings list pretty.

Local Open Scope string_scope.

(** ** Python values *)

(** [str.lower] on the ASCII letters.  The three names the script compares
    the result with are ASCII, and no non-ASCII character lowercases to just
    one of their letters, so the results of the comparisons are Python's. *)
Definition lower_ascii (c : ascii) : ascii :=
  let n := nat_of_ascii c in
  if (65 <=? n)%nat && (n <=? 90)%nat then ascii_of_nat (n + 32) else c.

Fixpoint lower (s : string) : string :=
  match s with
  | EmptyString => EmptyString
  | String c s' => String (lower_ascii c) (lower s')
  end.

(** A Python float, as far as the script can tell one from another: NaN, an
    infinity, or a number.  A float literal is kept as the decimal number
    that is written in the source. *)
Inductive float :=
| NaN
| Inf (negative : bool)
| Finite (q : Q).

Coercion Finite : Q >-> float.
Bind Scope Q_scope with float.

(** [a > b] on floats: a comparison with NaN is false. *)
Definition gt (a b : float) : bool :=
  match a, b with
  | NaN, _ | _, NaN => false
  | Inf negative, Inf negative' => negb negative && negative'
  | Inf negative, Finite _ => negb negative
  | Finite _, Inf negative => negative
  | Finite p, Finite q => negb (Qle_bool p q)
  end.

(** Values that are printed or used as defaults. *)
Inductive py_value :=
| PyNone
| PyBool (b : bool)
| PyInt (n : Z)
| PyFloat (f : float)
| PyStr (s : string).

(** [str(v)] for an optional string, as an f-string formats it. *)
Definition str (v : option string) : string :=
  match v with
  | None => "None"
  | Some s => s
  end.

(** [v == lit] for a value that is [None] or a string. *)
Definition eq_str (v : option string) (lit : string) : bool :=
  match v with
  | None => false
  | Some s => String.eqb s lit
  end.

(** ** argparse declarations *)

Inductive arg_type := type_float.
Inductive arg_action := store_true.

(** One [parser.add_argument(...)] call: the option strings and the keyword
    arguments that were given. *)
Record add_argument := {
  option_strings : list string;
  default : option py_value;
  type : option arg_type;
  action : option arg_action
}.

(** The eight calls of the script, in order. *)
Definition parser : list add_argument :=
  [ {| option_strings := ["-d"; "--dataset"]; default := Some (PyStr "Cora");
       type := None; action := None |};
    {| option_strings := ["-m"; "--model"]; default := Some (PyStr "gcn");
       type := None; action := None |};
    {| option_strings := ["--reg_graph"]; default := Some (PyFloat 0.001);
       type := Some type_float; action := None |};
    {| option_strings := ["--reg_model"]; default := Some (PyFloat 0.001);
       type := Some type_float; action := None |};
    {| option_strings := ["--prune_rate_graph"]; default := Some (PyFloat 0.05);
       type := Some type_float; action := None |};
    {| option_strings := ["--prune_rate_model"]; default := Some (PyFloat 0.8);
       type := Some type_float; action := None |};
    {| option_strings := ["--task"]; default := None;
       type := None; action := None |};
    {| option_strings := ["-v"; "--verbose"]; default := None;
       type := None; action := Some store_true |} ].

(** What argparse derives from a declaration: the attribute name is the first
    long option string without its dashes (else the first short one), with
    inner dashes replaced by underscores. *)
Definition is_long (o : string) : bool := String.prefix "--" o.

(** [o.lstrip("-")] *)
Fixpoint strip_dashes (o : string) : string :=
  match o with
  | String c o' => if Ascii.eqb c "-" then strip_dashes o' else o
  | EmptyString => EmptyString
  end.

Fixpoint dash_to_underscore (s : string) : string :=
  match s with
  | EmptyString => EmptyString
  | String c s' =>
      String (if Ascii.eqb c "-"%char then "_"%char else c) (dash_to_underscore s')
  end.

Definition dest (a : add_argument) : string :=
  match filter (fun o => is_long o = true) (option_strings a) with
  | o :: _ => dash_to_underscore (strip_dashes o)
  | [] => match option_strings a with
          | o :: _ => dash_to_underscore (strip_dashes o)
          | [] => ""
          end
  end.

(** The value the attribute has when the flag is absent. *)
Definition default_value (a : add_argument) : py_value :=
  match action a with
  | Some store_true => PyBool false
  | None => match default a with Some v => v | None => PyNone end
  end.

(** A [store_true] flag is a switch; every other flag consumes one value. *)
Definition takes_value (a : add_argument) : bool :=
  match action a with
  | Some store_true => false
  | None => true
  end.

Definition declared_flags (p : list add_argument) : list string :=
  concat (map option_strings p).

(** *** What argparse takes an argument string for

    The parser is created by [ArgumentParser()] with its defaults: the
    prefix character is "-", the option [-h], [--help] is added before the
    script's own, and a long option may be abbreviated to any prefix that
    fits one option only. *)

Inductive option_action :=
| help
| declared (a : add_argument).

(** [parser._option_string_actions]: every option string with its action. *)
Definition option_string_actions (p : list add_argument)
    : list (string * option_action) :=
  [("-h", help); ("--help", help)]
  ++ flat_map (fun a => map (fun o => (o, declared a)) (option_strings a)) p.

Definition lookup_option (acts : list (string * option_action)) (s : string)
    : option option_action :=
  option_map snd (List.find (fun oa => String.eqb s (fst oa)) acts).

(** [s.startswith(p)] *)
Fixpoint startswith (s p : string) {struct p} : bool :=
  match p with
  | EmptyString => true
  | String a p' =>
      match s with
      | EmptyString => false
      | String b s' => Ascii.eqb b a && startswith s' p'
      end
  end.

(** [s.split("=", 1)]: the text before the first "=", and the text after it
    when there is one. *)
Fixpoint split_eq (s : string) : string * option string :=
  match s with
  | EmptyString => (EmptyString, None)
  | String c s' =>
      if Ascii.eqb c "=" then (EmptyString, Some s')
      else (String c (fst (split_eq s')), snd (split_eq s'))
  end.

(** What an argument string is taken for: an option of the parser, by one
    of its option strings; an ambiguous abbreviation, which is an error; the
    separator "--"; or no option of the parser (a value, or an option string
    the parser does not know: the look of the string decides which). *)
Inductive recognized :=
| NotAnOption
| Separator
| Ambiguous
| Flag (a : option_action) (option_string : string).

(** [_get_option_tuples]: the options an argument may abbreviate.  A long
    argument fits every option that starts with its text before "="; an
    argument with one dash fits the short option of its first two characters
    and every option that starts with the whole argument. *)
Definition get_option_tuples (acts : list (string * option_action)) (s : string)
    : list (string * option_action) :=
  if startswith s "--" then
    List.filter (fun oa => startswith (fst oa) (fst (split_eq s))) acts
  else
    List.filter (fun oa => String.eqb (fst oa) (String.substring 0 2 s)
                           || startswith (fst oa) s) acts.

(** [_parse_optional], without the explicit argument of the option. *)
Definition parse_optional (acts : list (string * option_action)) (s : string)
    : recognized :=
  match s with
  | EmptyString => NotAnOption
  | String c _ =>
      if negb (Ascii.eqb c "-") then NotAnOption
      else
        match lookup_option acts s with
        | Some a => Flag a s
        | None =>
            if (String.length s =? 1)%nat then NotAnOption
            else
              match (match snd (split_eq s) with
                     | Some _ => lookup_option acts (fst (split_eq s))
                     | None => None
                     end) with
              | Some a => Flag a (fst (split_eq s))
              | None =>
                  match get_option_tuples acts s with
                  | [] => NotAnOption
                  | [oa] => Flag (snd oa) (fst oa)
                  | _ => Ambiguous
                  end
              end
        end
  end.

(** How [parse_args] classifies an argument that comes before any "--". *)
Definition recognize (p : list add_argument) (s : string) : recognized :=
  if String.eqb s "--" then Separator
  else parse_optional (option_string_actions p) s.

(** The flags the specification lists. *)
Definition listed_flags : list string :=
  ["-d"; "--dataset"; "-m"; "--model"; "--reg_graph"; "--reg_model";
   "--prune_rate_graph"; "--prune_rate_model"; "--task"; "-v"; "--verbose"].

(** The flags of the command line as the amended specification has them:
    every option string with the length of the shortest text that names
    it. *)
Definition flag_table : list (string * nat) :=
  [("-h", 2); ("--help", 3); ("-d", 2); ("--dataset", 3); ("-m", 2); ("--model", 3);
   ("--reg_graph", 7); ("--reg_model", 7);
   ("--prune_rate_graph", 14); ("--prune_rate_model", 14);
   ("--task", 3); ("-v", 2); ("--verbose", 3)]%nat.

(** The name in an argument: of a long argument the text before "=", of any
    other its first two characters. *)
Definition flag_name (s : string) : string :=
  if startswith s "--" then fst (split_eq s) else String.substring 0 2 s.

(** The name of [s] names the flag [o]: it is a prefix of [o], of [n]
    characters at least. *)
Definition names (s : string) (on : string * nat) : bool :=
  startswith (fst on) (flag_name s) && (snd on <=? String.length (flag_name s))%nat.

(** An argument is taken for the flag that its name names; a long argument
    whose name is a shorter prefix of a flag is ambiguous. *)
Definition by_the_table (s : string) : recognized :=
  if String.eqb s "--" then Separator
  else
    match List.filter (names s) flag_table with
    | on :: _ =>
        match lookup_option (option_string_actions parser) (fst on) with
        | Some a => Flag a (fst on)
        | None => NotAnOption
        end
    | [] =>
        if startswith s "--"
           && existsb (fun on => startswith (fst on) (flag_name s)) flag_table
        then Ambiguous else NotAnOption
    end.

(** The namespace [parse_args] returns for these declarations. *)
Module Namespace.
Record t := mk {
  dataset : string;
  model : string;
  reg_graph : float;
  reg_model : float;
  prune_rate_graph : float;
  prune_rate_model : float;
  task : option string;
  verbose : bool
}.
End Namespace.

(** ** Tensors, graphs and modules *)

(** Parameter tensors are addressed by location: two references to one
    tensor are one location. *)
Definition loc := nat.

(** The contents of a float tensor, flattened. *)
Definition tensor := list Q.

(** A [2 x E] integer tensor, kept as its [E] columns: [shape[-1]] is the
    length, [torch.cat(..., dim=-1)] is list append and [t[0]], [t[1]] are
    the first and second components. *)
Definition edge_tensor := list (Z * Z).

Definition row0 (t : edge_tensor) : list Z := map fst t.
Definition row1 (t : edge_tensor) : list Z := map snd t.

(** [torch_geometric.data.Data]: the attributes the script reads, and the two
    it adds ([edges], [edge_labels]), absent until they are assigned. *)
Module Data.
Record t := mk {
  x : tensor;
  edge_index : edge_tensor;
  edge_weight : option tensor;
  y : tensor;
  train_mask : tensor;
  val_mask : tensor;
  test_mask : tensor;
  edges : option edge_tensor;
  edge_labels : option (list Z)
}.
End Data.

(** The dataset object [Planetoid(root=..., name=...)] returns. *)
Record Dataset := { ds_root : string; ds_name : string }.

(** [OrderedDict] from parameter names to tensors.  [Module.state_dict()]
    puts the parameters themselves in it (detached, same storage). *)
Definition state_dict := list (string * loc).

Inductive gnn_class := GCN | GIN | GAT.

Record gnn_kwargs := {
  in_channels : Z;
  output_channels : Z;
  hidden_channels : Z;
  num_layers : Z
}.

(** A [torch.nn.Module]: one of the three library models, or the script's
    [LinkPredictor] around a module ([self.model = model]). *)
Inductive nn_Module :=
| BasicGNN (cls : gnn_class) (kwargs : gnn_kwargs) (params : state_dict)
| LinkPredictor (model : nn_Module).

(** A submodule's parameters are listed under its attribute name. *)
Fixpoint named_parameters (m : nn_Module) : state_dict :=
  match m with
  | BasicGNN _ _ params => params
  | LinkPredictor model =>
      map (fun kv => ("model." +:+ fst kv, snd kv)) (named_parameters model)
  end.

Definition parameters (m : nn_Module) : list loc := map snd (named_parameters m).

Inductive loss_function := binary_cross_entropy_with_logits | cross_entropy.

(** The keyword arguments of [GLTSearch(...)]. *)
Module GLTSearch.
Record t := mk {
  task : option string;
  module : nn_Module;
  graph : Data.t;
  lr : Q;
  reg_graph : float;
  reg_model : float;
  prune_rate_graph : float;
  prune_rate_model : float;
  optim_args : list (string * Q);
  seed : Z;
  verbose : bool;
  ignore_keys : list string;
  max_train_epochs : Z;
  loss_fn : loss_function
}.
End GLTSearch.

(** ** Library calls *)

(** An exception raised inside a library call, by its text. *)
Definition exception := string.

(** The calls the script makes into argparse, torch, tqdm and
    torch_geometric, each with the type of what it returns.  [.to(device)]
    is kept without its argument: [device] is fixed when the file is
    loaded.  [ForwardWithoutEdges] is [m(x, edge_index, edge_weight=...)] on
    a [LinkPredictor]: its [forward] has no default for [edges], so the call
    returns nothing, and the interpreter decides the text of the TypeError
    (it differs between Python versions). *)
Inductive call : Type -> Type :=
(* __main__ *)
| ParseArgs (p : list add_argument) (argv : list string) : call Namespace.t
| NewPlanetoid (root name : string) : call Dataset
| DatasetGetItem (ds : Dataset) (i : Z) : call Data.t
| DataTo (d : Data.t) : call Data.t
| NumNodes (d : Data.t) : call Z
| NumEdges (d : Data.t) : call Z
| NumNodeFeatures (ds : Dataset) : call Z
| NewGNN (cls : gnn_class) (kwargs : gnn_kwargs) : call (list (string * tensor))
| ModuleTo (m : nn_Module) : call unit
| NewGLTSearch (kw : GLTSearch.t) : call unit
| Prune (trainer : GLTSearch.t) : call (list (string * tensor) * list (string * tensor))
(* generate_edge_data *)
| NegativeSampling (edge_index : edge_tensor) : call edge_tensor
| Cat (a b : edge_tensor) : call edge_tensor
| NewTensor (l : list Z) : call (list Z)
(* LinkPredictor.forward and the tensor expressions of baseline *)
| Forward (m : nn_Module) (x : tensor) (edge_index : edge_tensor)
    (edge_weight : option tensor) (edges : option edge_tensor) : call tensor
| ForwardWithoutEdges (m : nn_Module) (x : tensor) (edge_index : edge_tensor)
    (edge_weight : option tensor) : call Empty_set
| IndexSelect (t : tensor) (index : list Z) : call tensor
| IndexMask (t mask : tensor) : call tensor
| IndexMaskLabels (t : list Z) (mask : tensor) : call (list Z)
| BitAnd (a b : tensor) : call tensor
| ToFloat (t : list Z) : call tensor
| Mul (a b : tensor) : call tensor
| SumLast (t : tensor) : call tensor
| Argmax (t : tensor) : call tensor
| GetEdges (d : Data.t) : call edge_tensor
| GetEdgeLabels (d : Data.t) : call (list Z)
(* baseline *)
| StateDict (m : nn_Module) : call state_dict
| LoadStateDict (m : nn_Module) (sd : state_dict) : call unit
| NewAdam (params : list loc) (lr weight_decay : Q) : call unit
| Trange (n : nat) (disable : bool) : call unit
| TrangeExit : call unit
| SetPostfix (loss val_score test_score : float) : call unit
| Train (m : nn_Module) : call unit
| Eval (m : nn_Module) : call unit
| ZeroGrad : call unit
| LossFn (f : loss_function) (input target : tensor) : call tensor
| Backward (loss : tensor) : call unit
| Step (current : list (option tensor)) : call (list tensor)
| Item (loss : tensor) : call float
| ScoreNodeClassification (y preds val_mask test_mask : tensor) : call (float * float)
| ScoreLinkPrediction (labels : list Z) (preds val_mask test_mask : tensor)
    : call (float * float).

(** The libraries as the script sees them: what the [n]-th logged event, when
    it is the call [c], returns ([inr]) or raises ([inl]). *)
Definition framework := forall A : Type, call A -> nat -> exception + A.

(** What a run leaves behind: a call with its result, or a printed line. *)
Inductive event :=
| Call {A : Type} (c : call A) (r : exception + A)
| Print (args : list py_value).

Definition raised_by (ev : event) : option exception :=
  match ev with
  | Call _ (inl e) => Some e
  | _ => None
  end.

(** ** The interpreter state and its monad *)

(** The store holds the parameter tensors of the models.  What the
    libraries keep for themselves (gradients, the state of the optimizer,
    buffers) is not part of it: a library call is an event, and the store
    changes only where the script has a tensor written through a reference
    it holds ([step], [load_state_dict]). *)
Record world := {
  heap : gmap loc tensor;
  next_loc : loc;
  log : list event
}.

Definition empty_world : world := {| heap := ∅; next_loc := 0%nat; log := [] |}.

(** How a statement ends: normally, or with an exception that is either
    raised by a [raise] statement of the script or came out of a library
    call. *)
Inductive raised :=
| ValueError (msg : string)
| LibraryError (e : exception).

Inductive outcome (A : Type) :=
| Normal (a : A)
| Raise (e : raised).
Arguments Normal {A} a.
Arguments Raise {A} e.

Definition Py (A : Type) : Type := world -> outcome A * world.

Definition ret {A} (a : A) : Py A := fun w => (Normal a, w).

Definition bind {A B} (m : Py A) (k : A -> Py B) : Py B :=
  fun w => match m w with
           | (Normal a, w') => k a w'
           | (Raise e, w') => (Raise e, w')
           end.

Definition raise {A} (e : raised) : Py A := fun w => (Raise e, w).

#[global] Instance Py_ret : MRet Py := @ret.
#[global] Instance Py_bind : MBind Py := fun A B k m => bind m k.

Definition emit (ev : event) : Py unit :=
  fun w => (Normal tt, {| heap := heap w; next_loc := next_loc w; log := (log w ++ [ev])%list |}).

(** A library call whose result [r] is known: logged, then returned or
    raised. *)
Definition perform {A} (c : call A) (r : exception + A) : Py A :=
  emit (Call c r);;
  match r with
  | inr a => ret a
  | inl e => raise (LibraryError e)
  end.

Definition print (args : list py_value) : Py unit := emit (Print args).

Definition read (l : loc) : Py (option tensor) := fun w => (Normal (heap w !! l), w).

Definition write (l : loc) (v : tensor) : Py unit :=
  fun w => (Normal tt, {| heap := <[l := v]> (heap w); next_loc := next_loc w; log := log w |}).

Definition alloc (v : tensor) : Py loc :=
  fun w => (Normal (next_loc w),
            {| heap := <[next_loc w := v]> (heap w); next_loc := S (next_loc w); log := log w |}).

Fixpoint mapM {A B} (f : A -> Py B) (l : list A) : Py (list B) :=
  match l with
  | [] => ret []
  | a :: l' => b ← f a; bs ← mapM f l'; ret (b :: bs)
  end.

(** [for x in l: acc = body(x, acc)] *)
Fixpoint for_each {A S} (l : list A) (body : A -> S -> Py S) (acc : S) : Py S :=
  match l with
  | [] => ret acc
  | a :: l' => acc' ← body a acc; for_each l' body acc'
  end.

(** [with cm as t: body]: the context manager is left on both paths; its
    [__exit__] returns [None], so an exception of the body is raised again. *)
Definition with_ {A} (enter leave : Py unit) (body : Py A) : Py A :=
  enter;;
  ((fun w => match body w with
             | (Normal a, w') => (leave;; ret a) w'
             | (Raise e, w') => (leave;; raise e) w'
             end) : Py A).

Definition find_param (k : string) (sd : state_dict) : option loc :=
  snd <$> List.find (fun kv => String.eqb k (fst kv)) sd.

Definition same_keys (a b : state_dict) : bool :=
  forallb (fun kv => bool_decide (is_Some (find_param (fst kv) b))) a
  && forallb (fun kv => bool_decide (is_Some (find_param (fst kv) a))) b.

Definition set_edges (d : Data.t) (v : edge_tensor) : Data.t :=
  Data.mk (Data.x d) (Data.edge_index d) (Data.edge_weight d) (Data.y d)
    (Data.train_mask d) (Data.val_mask d) (Data.test_mask d)
    (Some v) (Data.edge_labels d).

Definition set_edge_labels (d : Data.t) (v : list Z) : Data.t :=
  Data.mk (Data.x d) (Data.edge_index d) (Data.edge_weight d) (Data.y d)
    (Data.train_mask d) (Data.val_mask d) (Data.test_mask d)
    (Data.edges d) (Some v).

(** ** The script *)

Section Script.

Variable fw : framework.

(** A library call whose result the framework decides. *)
Definition ext {A} (c : call A) : Py A :=
  fun w => perform c (fw A c (length (log w))) w.

(** A call that cannot return: the framework decides what it raises. *)
Definition failing {A} (c : call Empty_set) : Py A :=
  ext c ≫= fun r : Empty_set => match r return Py A with end.

(** [graph.edges] and [graph.edge_labels]: the attribute, or AttributeError
    when it was never assigned. *)
Definition get_edges (graph : Data.t) : Py edge_tensor :=
  perform (GetEdges graph)
    (match Data.edges graph with
     | Some v => inr v
     | None => inl "AttributeError: 'GlobalStorage' object has no attribute 'edges'"
     end).

Definition get_edge_labels (graph : Data.t) : Py (list Z) :=
  perform (GetEdgeLabels graph)
    (match Data.edge_labels graph with
     | Some v => inr v
     | None => inl "AttributeError: 'GlobalStorage' object has no attribute 'edge_labels'"
     end).

(** *** generate_edge_data (lines 23-27)

    The function assigns two attributes of the object it is given; the
    updated object is returned and the caller's variable rebound to it. *)
Definition generate_edge_data (dataset : Data.t) : Py Data.t :=
  negative_edges ← ext (NegativeSampling (Data.edge_index dataset));
  let edge_labels :=
    (replicate (length negative_edges) 0%Z
     ++ replicate (length (Data.edge_index dataset)) 1%Z)%list in
  edges ← perform (Cat (Data.edge_index dataset) negative_edges)
            (inr (Data.edge_index dataset ++ negative_edges)%list);
  let dataset := set_edges dataset edges in
  labels ← perform (NewTensor edge_labels) (inr edge_labels);
  ret (set_edge_labels dataset labels).

(** *** LinkPredictor.forward (lines 35-39), and [model(...)] in general

    Calling a library model is a library call; calling a [LinkPredictor]
    runs the script's [forward], which needs its [edges] argument. *)
Fixpoint Module_call (m : nn_Module) (x : tensor) (edge_index : edge_tensor)
    (edge_weight : option tensor) (edges : option edge_tensor) : Py tensor :=
  match m with
  | BasicGNN _ _ _ => ext (Forward m x edge_index edge_weight edges)
  | LinkPredictor model =>
      match edges with
      | None => failing (ForwardWithoutEdges m x edge_index edge_weight)
      | Some edges =>
          x ← Module_call model x edge_index edge_weight None;
          edge_feat_i ← ext (IndexSelect x (row0 edges));
          edge_feat_j ← ext (IndexSelect x (row1 edges));
          prod ← ext (Mul edge_feat_i edge_feat_j);
          ext (SumLast prod)
      end
  end.

(** *** baseline (lines 42-96) *)

(** [model.state_dict()]: the parameters themselves, by name. *)
Definition get_state_dict (model : nn_Module) : Py state_dict :=
  perform (StateDict model) (inr (named_parameters model)).

(** [param.copy_(input_param)] for one entry of the dictionary. *)
Definition copy_ (own : state_dict) (kv : string * loc) (_ : unit) : Py unit :=
  match find_param (fst kv) own with
  | Some dst =>
      v ← read (snd kv);
      match v with
      | Some t => write dst t
      | None => ret tt
      end
  | None => ret tt
  end.

(** [model.load_state_dict(sd)]: every entry is copied into the parameter of
    its name; with the default [strict=True] a missing or unexpected key is
    an error. *)
Definition load_state_dict (model : nn_Module) (sd : state_dict) : Py unit :=
  for_each sd (copy_ (named_parameters model)) tt;;
  perform (LoadStateDict model sd)
    (if same_keys sd (named_parameters model) then inr tt
     else inl "RuntimeError: Error(s) in loading state_dict").

(** [optimizer.step()]: the parameters the optimizer was given are updated
    in place; the framework chooses the new values. *)
Definition step (params : list loc) : Py unit :=
  current ← mapM read params;
  new ← ext (Step current);
  for_each (zip params new) (fun lv _ => write (fst lv) (snd lv)) tt.

Definition unsupported_task (task : option string) : raised :=
  ValueError (str task +:+ " must be one of node class. or link pred.").

(** The training half of one epoch (lines 54-74): the loss. *)
Definition train_epoch (model : nn_Module) (graph : Data.t) (task : option string)
    (loss_fn : loss_function) (optimizer : list loc) : Py tensor :=
  ext (Train model);;
  ext ZeroGrad;;
  loss ←
    (if eq_str task "node_classification" then
       output ← Module_call model (Data.x graph) (Data.edge_index graph)
                  (Data.edge_weight graph) None;
       input ← ext (IndexMask output (Data.train_mask graph));
       target ← ext (IndexMask (Data.y graph) (Data.train_mask graph));
       ext (LossFn loss_fn input target)
     else if eq_str task "link_prediction" then
       edges ← get_edges graph;
       output ← Module_call model (Data.x graph) (Data.edge_index graph)
                  (Data.edge_weight graph) (Some edges);
       edges ← get_edges graph;
       mask0 ← ext (IndexSelect (Data.train_mask graph) (row0 edges));
       edges ← get_edges graph;
       mask1 ← ext (IndexSelect (Data.train_mask graph) (row1 edges));
       edge_mask ← ext (BitAnd mask0 mask1);
       input ← ext (IndexMask output edge_mask);
       labels ← get_edge_labels graph;
       labels ← ext (IndexMaskLabels labels edge_mask);
       target ← ext (ToFloat labels);
       ext (LossFn loss_fn input target)
     else raise (unsupported_task task));
  ext (Backward loss);;
  step optimizer;;
  ret loss.

(** The evaluation half (lines 76-86): [(val_score, test_score)]. *)
Definition eval_epoch (model : nn_Module) (graph : Data.t) (task : option string)
    : Py (float * float) :=
  ext (Eval model);;
  if eq_str task "node_classification" then
    output ← Module_call model (Data.x graph) (Data.edge_index graph)
               (Data.edge_weight graph) None;
    preds ← ext (Argmax output);
    ext (ScoreNodeClassification (Data.y graph) preds
           (Data.val_mask graph) (Data.test_mask graph))
  else if eq_str task "link_prediction" then
    edges ← get_edges graph;
    preds ← Module_call model (Data.x graph) (Data.edge_index graph)
              (Data.edge_weight graph) (Some edges);
    edges ← get_edges graph;
    v0 ← ext (IndexSelect (Data.val_mask graph) (row0 edges));
    edges ← get_edges graph;
    v1 ← ext (IndexSelect (Data.val_mask graph) (row1 edges));
    val_mask ← ext (BitAnd v0 v1);
    edges ← get_edges graph;
    t0 ← ext (IndexSelect (Data.test_mask graph) (row0 edges));
    edges ← get_edges graph;
    t1 ← ext (IndexSelect (Data.test_mask graph) (row1 edges));
    test_mask ← ext (BitAnd t0 t1);
    labels ← get_edge_labels graph;
    ext (ScoreLinkPrediction labels preds val_mask test_mask)
  else raise (unsupported_task task).

(** Lines 88-90, on the pair [(best_val_score, final_test_score)]. *)
Definition keep_best (acc : float * float) (scores : float * float) : float * float :=
  if gt (fst scores) (fst acc) then (fst scores, snd scores) else acc.

(** The body of [for epoch in t] (lines 54-94). *)
Definition epoch_body (model : nn_Module) (graph : Data.t) (task : option string)
    (loss_fn : loss_function) (optimizer : list loc)
    (epoch : nat) (acc : float * float) : Py (float * float) :=
  loss ← train_epoch model graph task loss_fn optimizer;
  scores ← eval_epoch model graph task;
  let acc := keep_best acc scores in
  l ← ext (Item loss);
  ext (SetPostfix l (fst scores) (snd scores));;
  ret acc.

Definition epochs : list nat := seq 0 200.

Definition baseline (model : nn_Module) (graph : Data.t) (task : option string)
    (verbose : bool) : Py unit :=
  initial_params ← get_state_dict model;
  let best_val_score : float := 0%Q in
  let final_test_score : float := 0%Q in
  ext (NewAdam (parameters model) 0.008 0.00008);;
  let optimizer := parameters model in
  let loss_fn :=
    if eq_str task "link_prediction" then binary_cross_entropy_with_logits
    else cross_entropy in
  acc ← with_ (ext (Trange 200 (negb verbose))) (perform TrangeExit (inr tt))
          (for_each epochs (epoch_body model graph task loss_fn optimizer)
             (best_val_score, final_test_score));
  load_state_dict model initial_params;;
  print [PyStr "[BASELINE] Final test performance:"; PyFloat (snd acc)].

(** *** __main__ (lines 99-176) *)

(** One branch of lines 122-144: the constructor of the chosen class, its
    parameters put in the store, then [.to(device)]. *)
Definition new_gnn (cls : gnn_class) (dataset : Dataset) (hidden_channels : Z)
    : Py nn_Module :=
  num_node_features ← ext (NumNodeFeatures dataset);
  let kwargs := {| in_channels := num_node_features;
                   output_channels := hidden_channels;
                   hidden_channels := hidden_channels;
                   num_layers := 2 |} in
  init ← ext (NewGNN cls kwargs);
  params ← mapM (fun kv => l ← alloc (snd kv); ret (fst kv, l)) init;
  let gnn := BasicGNN cls kwargs params in
  ext (ModuleTo gnn);;
  ret gnn.

(** The call of [baseline] on line 152 is commented out in the source, so
    it is not part of the flow. *)
Definition main (argv : list string) : Py unit :=
  args ← ext (ParseArgs parser argv);
  dataset ← ext (NewPlanetoid ("tmp/" +:+ Namespace.dataset args) (Namespace.dataset args));
  print [PyStr (Namespace.dataset args)];;
  print [PyStr (Namespace.model args)];;
  data ← ext (DatasetGetItem dataset 0);
  data ← ext (DataTo data);
  data ← (if eq_str (Namespace.task args) "link_prediction"
          then generate_edge_data data else ret data);
  num_nodes ← ext (NumNodes data);
  print [PyStr ("Nodes: " +:+ pretty num_nodes)];;
  num_edges ← ext (NumEdges data);
  print [PyStr ("Edges: " +:+ pretty num_edges)];;
  let hidden_channels := 512%Z in
  gnn ← (if String.eqb (lower (Namespace.model args)) "gcn" then
           new_gnn GCN dataset hidden_channels
         else if String.eqb (lower (Namespace.model args)) "gin" then
           new_gnn GIN dataset hidden_channels
         else if String.eqb (lower (Namespace.model args)) "gat" then
           new_gnn GAT dataset hidden_channels
         else raise (ValueError "model must be one of gcn, gin, gat"));
  let gnn := if eq_str (Namespace.task args) "link_prediction"
             then LinkPredictor gnn else gnn in
  let loss_fn :=
    if eq_str (Namespace.task args) "link_prediction"
    then binary_cross_entropy_with_logits else cross_entropy in
  let trainer :=
    {| GLTSearch.task := Namespace.task args;
       GLTSearch.module := gnn;
       GLTSearch.graph := data;
       GLTSearch.lr := 0.008;
       GLTSearch.reg_graph := Namespace.reg_graph args;
       GLTSearch.reg_model := Namespace.reg_model args;
       GLTSearch.prune_rate_graph := Namespace.prune_rate_graph args;
       GLTSearch.prune_rate_model := Namespace.prune_rate_model args;
       GLTSearch.optim_args := [("weight_decay", 0.00008%Q)];
       GLTSearch.seed := 1234;
       GLTSearch.verbose := Namespace.verbose args;
       GLTSearch.ignore_keys := ["eps"];
       GLTSearch.max_train_epochs := 200;
       GLTSearch.loss_fn := loss_fn |} in
  ext (NewGLTSearch trainer);;
  _ ← ext (Prune trainer);
  ret tt.

End Script.

(** A run from the empty world. *)
Definition run {A} (p : Py A) : outcome A * world := p empty_world.

(** ** Frameworks to run the script on *)

(** A small graph: three nodes, two edges. *)
Definition toy_graph : Data.t :=
  {| Data.x := [1; 0; 1]%Q;
     Data.edge_index := [(0, 1); (1, 2)]%Z;
     Data.edge_weight := None;
     Data.y := [0; 1; 0]%Q;
     Data.train_mask := [1; 0; 0]%Q;
     Data.val_mask := [0; 1; 0]%Q;
     Data.test_mask := [0; 0; 1]%Q;
     Data.edges := None;
     Data.edge_labels := None |}.

(** What each call returns in a framework where nothing fails that can
    succeed: the parser yields [args], the dataset holds [toy_graph], a new
    model has one parameter [weight], an optimizer step adds one to every
    entry of every parameter, and the scores of an epoch are [scores].  A
    [LinkPredictor] called without [edges] raises the TypeError of
    Python 3.10 and later. *)
Definition answer (args : Namespace.t) (scores : Q * Q) (A : Type) (c : call A)
    : exception + A :=
  match c in call T return exception + T with
  | ParseArgs _ _ => inr args
  | NewPlanetoid root name => inr {| ds_root := root; ds_name := name |}
  | DatasetGetItem _ _ => inr toy_graph
  | DataTo d => inr d
  | NumNodes d => inr (Z.of_nat (length (Data.x d)))
  | NumEdges d => inr (Z.of_nat (length (Data.edge_index d)))
  | NumNodeFeatures _ => inr 1%Z
  | NewGNN _ _ => inr [("weight", [0; 0]%Q)]
  | ModuleTo _ => inr tt
  | NewGLTSearch _ => inr tt
  | Prune _ => inr ([], [])
  | NegativeSampling _ => inr ([(2, 0)]%Z)
  | Cat a b => inr ((a ++ b)%list)
  | NewTensor l => inr l
  | Forward _ x _ _ _ => inr x
  | ForwardWithoutEdges _ _ _ _ =>
      inl "TypeError: LinkPredictor.forward() missing 1 required positional argument: 'edges'"
  | IndexSelect t _ => inr t
  | IndexMask t _ => inr t
  | IndexMaskLabels t _ => inr t
  | BitAnd a _ => inr a
  | ToFloat t => inr (map inject_Z t)
  | Mul a _ => inr a
  | SumLast t => inr t
  | Argmax t => inr t
  | GetEdges d => inr (from_option id [] (Data.edges d))
  | GetEdgeLabels d => inr (from_option id [] (Data.edge_labels d))
  | StateDict m => inr (named_parameters m)
  | LoadStateDict _ _ => inr tt
  | NewAdam _ _ _ => inr tt
  | Trange _ _ => inr tt
  | TrangeExit => inr tt
  | SetPostfix _ _ _ => inr tt
  | Train _ => inr tt
  | Eval _ => inr tt
  | ZeroGrad => inr tt
  | LossFn _ _ _ => inr [1]%Q
  | Backward _ => inr tt
  | Step current => inr (map (fun o => map (Qplus 1) (from_option id [] o)) current)
  | Item _ => inr (Finite 1)
  | ScoreNodeClassification _ _ _ _ => inr (Finite (fst scores), Finite (snd scores))
  | ScoreLinkPrediction _ _ _ _ => inr (Finite (fst scores), Finite (snd scores))
  end.

Definition all_return (args : Namespace.t) (scores : Q * Q) : framework :=
  fun A c _ => answer args scores A c.

Definition default_args : Namespace.t :=
  {| Namespace.dataset := "Cora"; Namespace.model := "gcn";
     Namespace.reg_graph := 0.001; Namespace.reg_model := 0.001;
     Namespace.prune_rate_graph := 0.05; Namespace.prune_rate_model := 0.8;
     Namespace.task := None; Namespace.verbose := false |}.

Definition with_task (args : Namespace.t) (task : option string) : Namespace.t :=
  Namespace.mk (Namespace.dataset args) (Namespace.model args)
    (Namespace.reg_graph args) (Namespace.reg_model args)
    (Namespace.prune_rate_graph args) (Namespace.prune_rate_model args)
    task (Namespace.verbose args).

Definition with_model (args : Namespace.t) (model : string) : Namespace.t :=
  Namespace.mk (Namespace.dataset args) model
    (Namespace.reg_graph args) (Namespace.reg_model args)
    (Namespace.prune_rate_graph args) (Namespace.prune_rate_model args)
    (Namespace.task args) (Namespace.verbose args).

(** The framework [fw], except that the event number [k] raises [e]. *)
Definition raising_at (k : nat) (e : exception) (fw : framework) : framework :=
  fun A c n => if (n =? k)%nat then inl e else fw A c n.

(** A model with one parameter tensor at location 0, and a store that holds
    it. *)
Definition toy_model : nn_Module :=
  BasicGNN GCN
    {| in_channels := 1; output_channels := 512; hidden_channels := 512;
       num_layers := 2 |}
    [("weight", 0%nat)].

Definition toy_world : world :=
  {| heap := {[ 0%nat := [0; 0]%Q ]}; next_loc := 1; log := [] |}.

(** ** Reading a log *)

(** The Python name of what was called. *)
Definition class_name (cls : gnn_class) : string :=
  match cls with
  | GCN => "GCN"
  | GIN => "GIN"
  | GAT => "GAT"
  end.

Definition call_name {A} (c : call A) : string :=
  match c with
  | ParseArgs _ _ => "ArgumentParser.parse_args"
  | NewPlanetoid _ _ => "Planetoid"
  | DatasetGetItem _ _ => "dataset[0]"
  | DataTo _ => "Data.to"
  | NumNodes _ => "Data.num_nodes"
  | NumEdges _ => "Data.num_edges"
  | NumNodeFeatures _ => "dataset.num_node_features"
  | NewGNN cls _ => class_name cls
  | ModuleTo _ => "Module.to"
  | NewGLTSearch _ => "GLTSearch"
  | Prune _ => "GLTSearch.prune"
  | NegativeSampling _ => "negative_sampling"
  | Cat _ _ => "torch.cat"
  | NewTensor _ => "torch.tensor"
  | Forward _ _ _ _ _ => "Module.__call__"
  | ForwardWithoutEdges _ _ _ _ => "Module.__call__"
  | IndexSelect _ _ => "Tensor.__getitem__"
  | IndexMask _ _ => "Tensor.__getitem__"
  | IndexMaskLabels _ _ => "Tensor.__getitem__"
  | BitAnd _ _ => "Tensor.__and__"
  | ToFloat _ => "Tensor.float"
  | Mul _ _ => "Tensor.__mul__"
  | SumLast _ => "Tensor.sum"
  | Argmax _ => "Tensor.argmax"
  | GetEdges _ => "Data.edges"
  | GetEdgeLabels _ => "Data.edge_labels"
  | StateDict _ => "Module.state_dict"
  | LoadStateDict _ _ => "Module.load_state_dict"
  | NewAdam _ _ _ => "Adam"
  | Trange _ _ => "tqdm.trange"
  | TrangeExit => "tqdm.__exit__"
  | SetPostfix _ _ _ => "tqdm.set_postfix"
  | Train _ => "Module.train"
  | Eval _ => "Module.eval"
  | ZeroGrad => "Optimizer.zero_grad"
  | LossFn _ _ _ => "loss_fn"
  | Backward _ => "Tensor.backward"
  | Step _ => "Optimizer.step"
  | Item _ => "Tensor.item"
  | ScoreNodeClassification _ _ _ _ => "score_node_classification"
  | ScoreLinkPrediction _ _ _ _ => "score_link_prediction"
  end.

Definition event_name (ev : event) : string :=
  match ev with
  | Call c _ => call_name c
  | Print _ => "print"
  end.

(** The keyword arguments of a model constructor call. *)
Definition constructed (ev : event) : option (gnn_class * gnn_kwargs) :=
  match ev with
  | Call (NewGNN cls kwargs) _ => Some (cls, kwargs)
  | _ => None
  end.

(** The keyword arguments of a [GLTSearch(...)] call, and the trainer of a
    [prune()] call. *)
Definition searched (ev : event) : option GLTSearch.t :=
  match ev with
  | Call (NewGLTSearch kw) _ => Some kw
  | _ => None
  end.

Definition pruned (ev : event) : option GLTSearch.t :=
  match ev with
  | Call (Prune trainer) _ => Some trainer
  | _ => None
  end.

(** What a call returned, for the calls whose results the properties name. *)
Definition returned_data (ev : event) : option Data.t :=
  match ev with
  | Call c r =>
      match c in call T return exception + T -> option Data.t with
      | DataTo _ => fun r => match r with inr d => Some d | inl _ => None end
      | _ => fun _ => None
      end r
  | Print _ => None
  end.

Definition returned_negatives (ev : event) : option edge_tensor :=
  match ev with
  | Call c r =>
      match c in call T return exception + T -> option edge_tensor with
      | NegativeSampling _ => fun r => match r with inr d => Some d | inl _ => None end
      | _ => fun _ => None
      end r
  | Print _ => None
  end.

Definition returned_features (ev : event) : option Z :=
  match ev with
  | Call c r =>
      match c in call T return exception + T -> option Z with
      | NumNodeFeatures _ => fun r => match r with inr d => Some d | inl _ => None end
      | _ => fun _ => None
      end r
  | Print _ => None
  end.

(** The initial parameters a model constructor returned, and the module of
    a [.to(device)] call. *)
Definition returned_parameters (ev : event) : option (list (string * tensor)) :=
  match ev with
  | Call c r =>
      match c in call T return exception + T -> option (list (string * tensor)) with
      | NewGNN _ _ => fun r => match r with inr d => Some d | inl _ => None end
      | _ => fun _ => None
      end r
  | Print _ => None
  end.

Definition moved (ev : event) : option nn_Module :=
  match ev with
  | Call (ModuleTo m) _ => Some m
  | _ => None
  end.

(** The attributes of a graph that the dataset provides. *)
Definition loaded_attributes (d : Data.t)
    : tensor * edge_tensor * option tensor * tensor * tensor * tensor * tensor :=
  (Data.x d, Data.edge_index d, Data.edge_weight d, Data.y d,
   Data.train_mask d, Data.val_mask d, Data.test_mask d).

(** The [(val_score, test_score)] a scoring call returned. *)
Definition scored (ev : event) : option (float * float) :=
  match ev with
  | Call c r =>
      match c in call T return exception + T -> option (float * float) with
      | ScoreNodeClassification _ _ _ _ =>
          fun r => match r with inr d => Some d | inl _ => None end
      | ScoreLinkPrediction _ _ _ _ =>
          fun r => match r with inr d => Some d | inl _ => None end
      | _ => fun _ => None
      end r
  | Print _ => None
  end.

(** The events only [baseline] produces: its library calls on the model and
    the optimizer, and its report. *)
Definition baseline_event (ev : event) : bool :=
  match ev with
  | Call (StateDict _) _ | Call (LoadStateDict _ _) _ | Call (NewAdam _ _ _) _
  | Call (Trange _ _) _ | Call (Train _) _ | Call ZeroGrad _
  | Call (Backward _) _ | Call (Step _) _ | Call (Eval _) _ => true
  | Print [PyStr s; PyFloat _] => String.eqb s "[BASELINE] Final test performance:"
  | _ => false
  end.

(** The events of a run that starts in [w] and ends in [w']. *)
Definition new_events (w w' : world) : list event := drop (length (log w)) (log w').

(** ** The statements of the specification *)

(** The linear flow of the main program, by the names of its events; the
    three calls of [generate_edge_data] are there for link prediction. *)
Definition flow (link_prediction : bool) (cls : gnn_class) : list string :=
  (["ArgumentParser.parse_args"; "Planetoid"; "print"; "print"; "dataset[0]"; "Data.to"]
   ++ (if link_prediction then ["negative_sampling"; "torch.cat"; "torch.tensor"] else [])
   ++ ["Data.num_nodes"; "print"; "Data.num_edges"; "print";
       "dataset.num_node_features"; class_name cls; "Module.to";
       "GLTSearch"; "GLTSearch.prune"])%list.

(** The constructor the specification names for a lowercased model name. *)
Definition constructor_named (name : string) : option gnn_class :=
  if String.eqb name "gcn" then Some GCN
  else if String.eqb name "gin" then Some GIN
  else if String.eqb name "gat" then Some GAT
  else None.

(** [a] exceeds [b], as numbers: neither is NaN, and [a] is the greater. *)
Definition exceeds (a b : float) : Prop :=
  match a, b with
  | NaN, _ | _, NaN => False
  | Inf negative, Inf negative' => negative = false /\ negative' = true
  | Inf negative, Finite _ => negative = false
  | Finite _, Inf negative => negative = true
  | Finite p, Finite q => (q < p)%Q
  end.

(** Epoch [k] is a record, in the words of the specification: its
    validation score strictly exceeds that of every earlier epoch.  It is the
    last record when no later epoch is one. *)
Definition is_record (scores : list (float * float)) (k : nat) : Prop :=
  exists s, scores !! k = Some s
    /\ forall j s', (j < k)%nat -> scores !! j = Some s' -> exceeds (fst s) (fst s').

Definition last_record (scores : list (float * float)) (k : nat) : Prop :=
  is_record scores k /\ forall k', (k < k')%nat -> ~ is_record scores k'.

(** Epoch [k] is kept: its validation score exceeds 0.0 and every earlier
    validation score, those that are NaN apart.  It is the last one kept
    when no later epoch is. *)
Definition is_kept (scores : list (float * float)) (k : nat) : Prop :=
  exists s, scores !! k = Some s
    /\ exceeds (fst s) 0
    /\ forall j s', (j < k)%nat -> scores !! j = Some s' ->
          fst s' = NaN \/ exceeds (fst s) (fst s').

Definition last_kept (scores : list (float * float)) (k : nat) : Prop :=
  is_kept scores k /\ forall k', (k < k')%nat -> ~ is_kept scores k'.

(** The script's own error for the model name. *)
Definition model_error : raised := ValueError "model must be one of gcn, gin, gat".

(** ** A logic of runs

    [triple p Q]: from every world, [p] only appends to the log, and its
    outcome and the events it appends satisfy [Q]. *)
Definition post (A : Type) : Type := outcome A -> list event -> Prop.

Definition triple {A} (p : Py A) (Q : post A) : Prop :=
  forall w, exists l, log (snd (p w)) = (log w ++ l)%list /\ Q (fst (p w)) l.

Definition of_result {A} (r : exception + A) : outcome A :=
  match r with
  | inr a => Normal a
  | inl e => Raise (LibraryError e)
  end.

(** A property of runs that holds of a sequence when it holds of its
    parts. *)
Class Sequential (I : forall A, post A) : Prop := {
  seq_ret : forall A (a : A), I A (Normal a) [];
  seq_raise : forall A B e l, I A (Raise e) l -> I B (Raise e) l;
  seq_app : forall A B (a : A) l1 (o : outcome B) l2,
    I A (Normal a) l1 -> I B o l2 -> I B o (l1 ++ l2)%list;
  seq_leave : forall A e l1 l2,
    I A (Raise e) l1 -> I unit (Normal tt) l2 -> I A (Raise e) (l1 ++ l2)%list
}.

(** Exactly the call that raised is the library error of the outcome. *)
Definition faithful (A : Type) : post A :=
  fun o l => omap raised_by l = match o with
                                | Raise (LibraryError e) => [e]
                                | _ => []
                                end.

(** No scoring call was made. *)
Definition unscored (A : Type) : post A := fun _ l => omap scored l = [].

(** No [raise] statement of the script was reached. *)
Definition no_own_error (A : Type) : post A :=
  fun o _ => match o with
             | Raise (ValueError _) => False
             | _ => True
             end.

(** The only [raise] statement that was reached is the one for the model. *)
Definition only_model_error (A : Type) : post A :=
  fun o _ => forall msg, o = Raise (ValueError msg) -> ValueError msg = model_error.

(** Nothing that belongs to [baseline] happened. *)
Definition no_baseline (A : Type) : post A :=
  fun _ l => existsb baseline_event l = false.

(** The run did not end normally, and the only error of the script's own is
    the one for the task. *)
Definition rejects (task : option string) (A : Type) : post A :=
  fun o _ => match o with
             | Normal _ => False
             | Raise (ValueError msg) => ValueError msg = unsupported_task task
             | Raise (LibraryError _) => True
             end.

(** A property of the runs that end normally: of the value returned and the
    events appended. *)
Definition on_normal {A} (P : A -> list event -> Prop) : post A :=
  fun o l => match o with
             | Normal a => P a l
             | Raise _ => True
             end.

(** [(best_val_score, final_test_score)] after epochs with the given scores. *)
Definition after_epochs (scores : list (float * float)) : float * float :=
  foldl keep_best (Finite 0, Finite 0) scores.

(** What [baseline] leaves in the log when it returns: the scores of 200
    epochs, and last the report of the test score it kept. *)
Definition reports (evs : list event) : Prop :=
  length (omap scored evs) = 200%nat
  /\ last evs = Some (Print [PyStr "[BASELINE] Final test performance:";
                             PyFloat (snd (after_epochs (omap scored evs)))]).

(** The property that holds of every run. *)
Definition anything (A : Type) : post A := fun _ _ => True.

(** Arguments and frameworks of the examples. *)
Definition link_prediction_args : Namespace.t :=
  with_task default_args (Some "link_prediction").

Definition unsupported_args : Namespace.t := with_task default_args (Some "foo").

Definition quiet : framework := all_return default_args (0.5, 0.25)%Q.

(** The framework [quiet], except for the validation scores: the first epoch
    of a run of [baseline] from an empty log (its scoring call is event 14)
    has the scores [(nan, 0.75)], every later epoch [(0.5, 0.25)]. *)
Definition nan_first : framework :=
  fun A c n =>
    match c in call T return exception + T with
    | ScoreNodeClassification _ _ _ _ =>
        inr (if (n <=? 14)%nat then (NaN, Finite 0.75) else (Finite 0.5, Finite 0.25))
    | c' => quiet _ c' n
    end.

(** What the main program hands to [GLTSearch] for link prediction when the
    dataset holds [toy_graph] and the sampler returns the edge [(2, 0)]. *)
Definition toy_trainer : GLTSearch.t :=
  {| GLTSearch.task := Some "link_prediction";
     GLTSearch.module := LinkPredictor toy_model;
     GLTSearch.graph :=
       set_edge_labels (set_edges toy_graph [(0, 1); (1, 2); (2, 0)]%Z) [0; 1; 1]%Z;
     GLTSearch.lr := 0.008;
     GLTSearch.reg_graph := 0.001;
     GLTSearch.reg_model := 0.001;
     GLTSearch.prune_rate_graph := 0.05;
     GLTSearch.prune_rate_model := 0.8;
     GLTSearch.optim_args := [("weight_decay", 0.00008%Q)];
     GLTSearch.seed := 1234;
     GLTSearch.verbose := false;
     GLTSearch.ignore_keys := ["eps"];
     GLTSearch.max_train_epochs := 200;
     GLTSearch.loss_fn := binary_cross_entropy_with_logits |}.

(** ** The skeleton of a run of baseline *)

(** The steps of [baseline] that matter to a caller, each counted when its
    call has returned: the progress bar is entered and left, an epoch
    back-propagates, updates the parameters and evaluates, and at the end the
    parameters are loaded back and the result is reported. *)
Inductive mark := Enter | Backprop | Update | Evaluate | Leave | Restore | Report.

#[global] Instance mark_eq_dec : EqDecision mark.
Proof. solve_decision. Defined.

Definition when_returned {A} (r : exception + A) (m : mark) : option mark :=
  match r with
  | inr _ => Some m
  | inl _ => None
  end.

Definition marker (ev : event) : option mark :=
  match ev with
  | Call c r =>
      match c with
      | Trange _ _ => when_returned r Enter
      | Backward _ => when_returned r Backprop
      | Step _ => when_returned r Update
      | ScoreNodeClassification _ _ _ _ => when_returned r Evaluate
      | ScoreLinkPrediction _ _ _ _ => when_returned r Evaluate
      | TrangeExit => when_returned r Leave
      | LoadStateDict _ _ => when_returned r Restore
      | _ => None
      end
  | Print [PyStr s; PyFloat _] =>
      if String.eqb s "[BASELINE] Final test performance:" then Some Report else None
  | Print _ => None
  end.

Definition epoch_marks : list mark := [Backprop; Update; Evaluate].

(** The marks of a run: [N] of those of a run that ends normally, [R] of
    those of a run that ends with an exception. *)
Definition shape {A} (N R : list mark -> Prop) : post A :=
  fun o l => match o with
             | Normal _ => N (omap marker l)
             | Raise _ => R (omap marker l)
             end.

(** A run that ends normally makes the steps [F]; one that ends with an
    exception has made the first of them. *)
Definition steps {A} (F : list mark) : post A :=
  shape (fun s => s = F) (fun s => s `prefix_of` F).

(** No step was made. *)
Definition unmarked (A : Type) : post A := fun _ l => omap marker l = [].

(** The marks of a run of [baseline] that ends with an exception: none, or
    the bar was entered, some first steps of the epochs were made and the
    bar was left. *)
Definition interrupted (s : list mark) : Prop :=
  s = [] \/ exists p, p `prefix_of` concat (replicate 200 epoch_marks)
                      /\ s = (Enter :: p ++ [Leave])%list.


(** ** The store *)

(** [p] allocates nothing and writes only locations that satisfy [W]. *)
Definition writes_only (W : loc -> Prop) {A} (p : Py A) : Prop :=
  forall w,
    next_loc (snd (p w)) = next_loc w
    /\ forall l, ~ W l -> heap (snd (p w)) !! l = heap w !! l.

(** [p] never ends normally, and leaves the store as it found it. *)
Definition gives_up {A} (p : Py A) : Prop :=
  forall w,
    (forall a, fst (p w) <> Normal a)
    /\ next_loc (snd (p w)) = next_loc w
    /\ heap (snd (p w)) = heap w.

(** ** Calls that cannot succeed *)

(** The text of the AttributeError of a graph without edge data. *)
Definition missing_edges_attribute : exception :=
  "AttributeError: 'GlobalStorage' object has no attribute 'edges'".

(** A call of a module, of either kind. *)
Definition is_forward (ev : event) : bool :=
  match ev with
  | Call (Forward _ _ _ _ _) _ => true
  | Call (ForwardWithoutEdges _ _ _ _) _ => true
  | _ => false
  end.

(** What the call of a [LinkPredictor] without [edges] raised. *)
Definition refused (ev : event) : option exception :=
  match ev with
  | Call (ForwardWithoutEdges _ _ _ _) (inl e) => Some e
  | _ => None
  end.

(** The exception is the one of a call without [edges]. *)
Definition refusal (e : exception) (l : list event) : Prop := In e (omap refused l).

(** The exception is the AttributeError for [edges]. *)
Definition no_edges (e : exception) (l : list event) : Prop := e = missing_edges_attribute.

Definition is_get_edges (ev : event) : bool :=
  match ev with
  | Call (GetEdges _) _ => true
  | _ => false
  end.

(** The run has not reached an event of the kind [key], and no [raise]
    statement of the script. *)
Definition before (key : event -> bool) (A : Type) : post A :=
  fun o l => existsb key l = false
             /\ match o with
                | Raise (ValueError _) => False
                | _ => True
                end.

(** The run ends with a library exception: one that [err] describes,
    unless it ended before an event of the kind [key]. *)
Definition doomed (key : event -> bool) (err : exception -> list event -> Prop)
    (A : Type) : post A :=
  fun o l => match o with
             | Raise (LibraryError e) => err e l \/ existsb key l = false
             | _ => False
             end.

(** How deep a module is wrapped in [LinkPredictor]s. *)
Fixpoint wrappers (m : nn_Module) : nat :=
  match m with
  | BasicGNN _ _ _ => 0
  | LinkPredictor model => S (wrappers model)
  end.

(** ** More of the log *)

(** The loss function of a loss call. *)
Definition loss_of (ev : event) : option loss_function :=
  match ev with
  | Call (LossFn f _ _) _ => Some f
  | _ => None
  end.

(** Every loss call of the run used [f]. *)
Definition uses_loss (f : loss_function) (A : Type) : post A :=
  fun _ l => forall g, In g (omap loss_of l) -> g = f.

(** The loss function that goes with a task. *)
Definition loss_for (task : option string) : loss_function :=
  if eq_str task "link_prediction" then binary_cross_entropy_with_logits
  else cross_entropy.

(** The main program up to the test of the model name, by the names of its
    events. *)
Definition flow_before_model (link_prediction : bool) : list string :=
  (["ArgumentParser.parse_args"; "Planetoid"; "print"; "print"; "dataset[0]"; "Data.to"]
   ++ (if link_prediction then ["negative_sampling"; "torch.cat"; "torch.tensor"] else [])
   ++ ["Data.num_nodes"; "print"; "Data.num_edges"; "print"])%list.

(** [edge_labels] is aligned with [edges] when entry [k] is 1 exactly for the
    columns that hold the [n] original edges, which come first. *)
Definition aligned (n : nat) (edge_labels : list Z) : Prop :=
  forall k, edge_labels !! k = Some 1%Z <-> (k < n)%nat.

(** ** The parameters and the optimizer *)

(** The new values an optimizer step returned. *)
Definition stepped (ev : event) : option (list tensor) :=
  match ev with
  | Call c r =>
      match c in call T return exception + T -> option (list tensor) with
      | Step _ => fun r => match r with inr new => Some new | inl _ => None end
      | _ => fun _ => None
      end r
  | Print _ => None
  end.

(** The store holds, at the locations [params], the values [new], position
    by position. *)
Definition holds (params : list loc) (new : list tensor) (h : gmap loc tensor) : Prop :=
  forall i l v, params !! i = Some l -> new !! i = Some v -> h !! l = Some v.

(** [p] changes the store only by optimizer steps on [params]: after a run
    the store holds what the last step returned, and is what it was if no
    step returned. *)
Definition tracks (params : list loc) {A} (p : Py A) : Prop :=
  forall w, exists l,
    log (snd (p w)) = (log w ++ l)%list
    /\ match last (omap stepped l) with
       | Some new => holds params new (heap (snd (p w)))
       | None => heap (snd (p w)) = heap w
       end.

(** * Properties *)

(** ** The monad *)

Lemma bind_run {A B} (m : Py A) (k : A -> Py B) (w : world) :
  (m ≫= k) w = match m w with
               | (Normal a, w') => k a w'
               | (Raise e, w') => (Raise e, w')
               end.
Proof. reflexivity. Qed.

Lemma perform_run {A} (c : call A) (r : exception + A) (w : world) :
  perform c r w
  = (of_result r, {| heap := heap w; next_loc := next_loc w;
                     log := (log w ++ [Call c r])%list |}).
Proof. destruct r; reflexivity. Qed.

(** ** Rules of the logic *)

Lemma triple_weaken {A} (p : Py A) (P Q : post A) :
  triple p P -> (forall o l, P o l -> Q o l) -> triple p Q.
Proof.
  intros Hp HPQ w. destruct (Hp w) as (l & Hl & HP). eauto.
Qed.

Lemma triple_ret {A} (a : A) (Q : post A) : Q (Normal a) [] -> triple (ret a) Q.
Proof. intros HQ w. exists []. cbn. by rewrite app_nil_r. Qed.

Lemma triple_raise {A} (e : raised) (Q : post A) : Q (Raise e) [] -> triple (raise e) Q.
Proof. intros HQ w. exists []. cbn. by rewrite app_nil_r. Qed.

Lemma triple_emit (ev : event) (Q : post unit) : Q (Normal tt) [ev] -> triple (emit ev) Q.
Proof. intros HQ w. exists [ev]. by cbn. Qed.

Lemma triple_perform {A} (c : call A) (r : exception + A) (Q : post A) :
  Q (of_result r) [Call c r] -> triple (perform c r) Q.
Proof. intros HQ w. exists [Call c r]. rewrite perform_run. by cbn. Qed.

Lemma triple_ext fw {A} (c : call A) (Q : post A) :
  (forall r, Q (of_result r) [Call c r]) -> triple (ext fw c) Q.
Proof. intros HQ w. unfold ext. apply triple_perform, HQ. Qed.

Lemma triple_read (l : loc) (Q : post (option tensor)) :
  (forall v, Q (Normal v) []) -> triple (read l) Q.
Proof. intros HQ w. exists []. cbn. by rewrite app_nil_r. Qed.

Lemma triple_write (l : loc) (v : tensor) (Q : post unit) :
  Q (Normal tt) [] -> triple (write l v) Q.
Proof. intros HQ w. exists []. cbn. by rewrite app_nil_r. Qed.

Lemma triple_alloc (v : tensor) (Q : post loc) :
  (forall l, Q (Normal l) []) -> triple (alloc v) Q.
Proof. intros HQ w. exists []. cbn. by rewrite app_nil_r. Qed.

Lemma triple_bind {A B} (m : Py A) (k : A -> Py B) (P : post A) (R : A -> post B)
    (Q : post B) :
  triple m P ->
  (forall a, triple (k a) (R a)) ->
  (forall e l, P (Raise e) l -> Q (Raise e) l) ->
  (forall a l1 o l2, P (Normal a) l1 -> R a o l2 -> Q o (l1 ++ l2)%list) ->
  triple (m ≫= k) Q.
Proof.
  intros Hm Hk Hraise Hseq w. rewrite bind_run.
  destruct (Hm w) as (l1 & Hl1 & HP).
  destruct (m w) as [[a|e] w1]; cbn in *.
  - destruct (Hk a w1) as (l2 & Hl2 & HR).
    exists (l1 ++ l2)%list. rewrite Hl2, Hl1, app_assoc. eauto.
  - eauto.
Qed.

Lemma triple_with {A} (enter leave : Py unit) (body : Py A) (P L : post unit)
    (R Q : post A) :
  triple enter P ->
  triple body R ->
  triple leave (fun o l => o = Normal tt /\ L o l) ->
  (forall e l, P (Raise e) l -> Q (Raise e) l) ->
  (forall l1 o l2 l3,
      P (Normal tt) l1 -> R o l2 -> L (Normal tt) l3 -> Q o (l1 ++ l2 ++ l3)%list) ->
  triple (with_ enter leave body) Q.
Proof.
  intros Henter Hbody Hleave Hraise Hseq w. unfold with_. rewrite bind_run.
  destruct (Henter w) as (l1 & Hl1 & HP).
  destruct (enter w) as [[[]|e] w1]; cbn in *; [|by eauto].
  destruct (Hbody w1) as (l2 & Hl2 & HR).
  destruct (body w1) as [o w2]; cbn in *.
  destruct (Hleave w2) as (l3 & Hl3 & Hn & HL).
  exists (l1 ++ l2 ++ l3)%list.
  destruct o as [a|e]; rewrite bind_run;
    destruct (leave w2) as [o3 w3]; cbn in *; subst o3; cbn;
    rewrite Hl3, Hl2, Hl1, <- !app_assoc; eauto.
Qed.

(** *** Sequential properties *)

Section Sequential.

Context (I : forall A, post A) `{!Sequential I}.

Lemma seq_bind {A B} (m : Py A) (k : A -> Py B) :
  triple m (I A) -> (forall a, triple (k a) (I B)) -> triple (m ≫= k) (I B).
Proof.
  intros Hm Hk.
  eapply triple_bind with (R := fun _ => I B); [exact Hm | exact Hk | |].
  - intros e l. apply seq_raise.
  - intros a l1 o l2. apply seq_app.
Qed.

Lemma seq_with {A} (enter : Py unit) (c : call unit) (body : Py A) :
  triple enter (I unit) -> triple body (I A) -> I unit (Normal tt) [Call c (inr tt)] ->
  triple (with_ enter (perform c (inr tt)) body) (I A).
Proof.
  intros Henter Hbody Hc.
  eapply triple_with with (L := fun _ l => l = [Call c (inr tt)]);
    [exact Henter | exact Hbody | | |].
  - apply triple_perform. done.
  - intros e l. apply seq_raise.
  - intros l1 o l2 l3 HP HR ->. eapply seq_app; [exact HP|].
    destruct o as [a|e].
    + eapply seq_app; [exact HR|].
      change [Call c (inr tt)] with ([Call c (inr tt)] ++ [])%list.
      eapply seq_app; [exact Hc | apply seq_ret].
    + by apply seq_leave.
Qed.

Lemma seq_mapM {A B} (f : A -> Py B) (l : list A) :
  (forall a, triple (f a) (I B)) -> triple (mapM f l) (I (list B)).
Proof.
  intros Hf. induction l as [|a l IH]; cbn [mapM].
  - apply triple_ret, seq_ret.
  - apply seq_bind; [apply Hf|]. intros b.
    apply seq_bind; [apply IH|]. intros bs. apply triple_ret, seq_ret.
Qed.

Lemma seq_for_each {A S} (l : list A) (body : A -> S -> Py S) (acc : S) :
  (forall a s, triple (body a s) (I S)) -> triple (for_each l body acc) (I S).
Proof.
  intros Hbody. revert acc. induction l as [|a l IH]; intros acc; cbn [for_each].
  - apply triple_ret, seq_ret.
  - apply seq_bind; [apply Hbody|]. intros acc'. apply IH.
Qed.

End Sequential.

#[local] Instance faithful_sequential : Sequential faithful.
Proof.
  split; unfold faithful.
  - done.
  - intros A B e l. by destruct e.
  - intros A B a l1 o l2 H1 H2. by rewrite omap_app, H1, H2.
  - intros A e l1 l2 H1 H2. by rewrite omap_app, H1, H2, app_nil_r.
Qed.

#[local] Instance unscored_sequential : Sequential unscored.
Proof.
  split; unfold unscored; try done.
  - intros A B a l1 o l2 H1 H2. by rewrite omap_app, H1, H2.
  - intros A e l1 l2 H1 H2. by rewrite omap_app, H1, H2.
Qed.

#[local] Instance no_own_error_sequential : Sequential no_own_error.
Proof. split; unfold no_own_error; try done. Qed.

#[local] Instance only_model_error_sequential : Sequential only_model_error.
Proof.
  split; unfold only_model_error; try done.
  intros A B e l H msg [= ->]. by apply H.
Qed.

#[local] Instance no_baseline_sequential : Sequential no_baseline.
Proof.
  split; unfold no_baseline; try done.
  - intros A B a l1 o l2 H1 H2. by rewrite existsb_app, H1, H2.
  - intros A e l1 l2 H1 H2. by rewrite existsb_app, H1, H2.
Qed.

#[local] Instance anything_sequential : Sequential anything.
Proof. by split. Qed.

(** Proves [triple p (I A)] for a sequential [I] by following the program;
    [atom] proves [I] of a single statement. *)
Ltac follow I atom :=
  repeat first
    [ progress intros
    | progress cbv zeta
    | match goal with H : _ |- triple _ _ => apply H end
    | apply (seq_with I); [ | | atom]
    | apply triple_ext; intros [?|?]; atom
    | apply triple_perform; atom
    | apply (seq_mapM I)
    | apply (seq_for_each I)
    | apply (seq_bind I)
    | apply triple_emit; atom
    | apply triple_ret; atom
    | apply triple_raise; atom
    | apply triple_read; intros; atom
    | apply triple_write; atom
    | apply triple_alloc; intros; atom
    | match goal with
      | |- triple (if ?b then _ else _) _ => destruct b
      | |- triple (match ?x with _ => _ end) _ => destruct x
      end ].


(** *** The functions of the script, for a sequential property *)

Section ScoreFree.

(** [I] holds of every single call that is not a scoring call, of a printed
    line and of a [raise]. *)
Context (I : forall A, post A) `{!Sequential I}.
Hypothesis Hcall : forall A (c : call A) r,
  scored (Call c r) = None -> I A (of_result r) [Call c r].
Hypothesis Hprint : forall args, I unit (Normal tt) [Print args].
Hypothesis Hraise : forall A msg, I A (Raise (ValueError msg)) [].

Variable fw : framework.

Ltac atom :=
  first [ match goal with |- I _ _ [Call ?c ?r] => apply (Hcall _ c r); reflexivity end
        | apply Hprint | apply Hraise | apply seq_ret ].

Lemma seq_Module_call m x edge_index edge_weight edges :
  triple (Module_call fw m x edge_index edge_weight edges) (I tensor).
Proof.
  revert x edges. induction m as [cls kwargs params|model IH]; intros x edges; cbn [Module_call].
  - follow I ltac:(atom).
  - destruct edges as [edges|]; follow I ltac:(atom).
Qed.

Lemma seq_get_state_dict model : triple (get_state_dict model) (I state_dict).
Proof. unfold get_state_dict. follow I ltac:(atom). Qed.

Lemma seq_load_state_dict model sd : triple (load_state_dict model sd) (I unit).
Proof. unfold load_state_dict, copy_. follow I ltac:(atom). Qed.

Lemma seq_step params : triple (step fw params) (I unit).
Proof. unfold step. follow I ltac:(atom). Qed.

Lemma seq_train_epoch model graph task loss_fn optimizer :
  triple (train_epoch fw model graph task loss_fn optimizer) (I tensor).
Proof.
  pose proof seq_Module_call. pose proof seq_step.
  unfold train_epoch, get_edges, get_edge_labels, unsupported_task. follow I ltac:(atom).
Qed.

End ScoreFree.

Section Whole.

(** [I] holds of every single call. *)
Context (I : forall A, post A) `{!Sequential I}.
Hypothesis Hcall : forall A (c : call A) r, I A (of_result r) [Call c r].
Hypothesis Hprint : forall args, I unit (Normal tt) [Print args].
Hypothesis Hraise : forall A msg, I A (Raise (ValueError msg)) [].

Variable fw : framework.

Ltac atom :=
  first [ match goal with |- I _ _ [Call ?c ?r] => apply (Hcall _ c r) end
        | apply Hprint | apply Hraise | apply seq_ret ].

Lemma seq_eval_epoch model graph task :
  triple (eval_epoch fw model graph task) (I (float * float)).
Proof.
  pose proof (seq_Module_call I (fun A c r _ => Hcall A c r) fw).
  unfold eval_epoch, get_edges, get_edge_labels, unsupported_task. follow I ltac:(atom).
Qed.

Lemma seq_epoch_body model graph task loss_fn optimizer epoch acc :
  triple (epoch_body fw model graph task loss_fn optimizer epoch acc) (I (float * float)).
Proof.
  pose proof (seq_train_epoch I (fun A c r _ => Hcall A c r) Hraise fw).
  pose proof seq_eval_epoch.
  unfold epoch_body. follow I ltac:(atom).
Qed.

Lemma seq_baseline model graph task verbose :
  triple (baseline fw model graph task verbose) (I unit).
Proof.
  pose proof (seq_get_state_dict I (fun A c r _ => Hcall A c r)).
  pose proof (seq_load_state_dict I (fun A c r _ => Hcall A c r)).
  pose proof seq_epoch_body.
  unfold baseline, print. follow I ltac:(atom).
Qed.

End Whole.

(** ** The main program *)

Section Main.

Variable fw : framework.

Lemma faithful_main argv : triple (main fw argv) (faithful unit).
Proof.
  unfold main, new_gnn, generate_edge_data, print.
  follow faithful ltac:(reflexivity).
Qed.

Lemma only_model_error_main argv : triple (main fw argv) (only_model_error unit).
Proof.
  unfold main, new_gnn, generate_edge_data, print.
  follow only_model_error ltac:(by intros ? ?; simplify_eq).
Qed.

Lemma no_baseline_main argv : triple (main fw argv) (no_baseline unit).
Proof.
  unfold main, new_gnn, generate_edge_data, print.
  follow no_baseline ltac:(reflexivity).
Qed.

(** Putting the parameters of a new model in the store logs nothing and
    cannot fail; the new locations are fresh, and what was in the store
    stays. *)
Lemma mapM_alloc_fresh (init : list (string * tensor)) (w : world) :
  exists params h n,
    mapM (fun kv => l ← alloc (snd kv); ret (fst kv, l)) init w
    = (Normal params, {| heap := h; next_loc := n; log := log w |})
    /\ map fst params = map fst init
    /\ (forall i l t, map snd params !! i = Some l -> map snd init !! i = Some t ->
          h !! l = Some t)
    /\ (forall l, (l < next_loc w)%nat -> h !! l = heap w !! l).
Proof.
  revert w. induction init as [|kv init IH]; intros w.
  - exists [], (heap w), (next_loc w). destruct w. by repeat split.
  - destruct (IH {| heap := <[next_loc w := snd kv]> (heap w);
                    next_loc := S (next_loc w); log := log w |})
      as (ps & h & n & E & Hnames & Hvalues & Hold).
    cbn [heap next_loc] in Hold.
    exists ((fst kv, next_loc w) :: ps), h, n.
    split; [|split; [|split]].
    + cbn [mapM]. unfold mbind, Py_bind, bind, alloc, ret in *. cbn [log] in *.
      by rewrite E.
    + cbn. by rewrite Hnames.
    + intros [|i] l t Hl Ht; cbn in Hl, Ht.
      * injection Hl as <-. injection Ht as <-.
        rewrite Hold by lia. by rewrite lookup_insert_eq.
      * eauto.
    + intros l Hl. rewrite Hold by lia. rewrite lookup_insert_ne by lia. done.
Qed.

(** The parameters of the new model have the names the constructor gave
    them, and the store holds the tensors it returned. *)
Lemma mapM_alloc (init : list (string * tensor)) (w : world) :
  exists params h n,
    mapM (fun kv => l ← alloc (snd kv); ret (fst kv, l)) init w
    = (Normal params, {| heap := h; next_loc := n; log := log w |})
    /\ map fst params = map fst init
    /\ forall i l t, map snd params !! i = Some l -> map snd init !! i = Some t ->
          h !! l = Some t.
Proof.
  destruct (mapM_alloc_fresh init w) as (ps & h & n & E & Hnames & Hvalues & _).
  by exists ps, h, n.
Qed.

End Main.

(** Runs the main program symbolically: one case per result of each library
    call and per test of the script. *)
Ltac unfold_main :=
  cbv [run main generate_edge_data new_gnn
       mbind Py_bind bind ext perform emit ret raise print empty_world];
  cbn [log heap next_loc length app].

Ltac next_case fw :=
  first
  [ match goal with
    | H : fw ?A ?c ?n = _ |- context [fw ?A ?c ?n] => rewrite H
    | |- context [fw ?A ?c ?n] =>
        let r := fresh "r" in destruct (fw A c n) as [r|r] eqn:?
    end
  | match goal with
    | |- context [mapM ?f ?init ?w] =>
        let ps := fresh "params" in
        let h := fresh "h" in
        let n := fresh "n" in
        let E := fresh "E" in
        let Hnames := fresh "Hnames" in
        let Hvalues := fresh "Hvalues" in
        destruct (mapM_alloc init w) as (ps & h & n & E & Hnames & Hvalues);
        cbv [mbind Py_bind bind ret] in E; cbn [log] in E; rewrite E; clear E
    end
  | match goal with
    | |- context [if ?b then _ else _] => destruct b eqn:?
    end ];
  cbv beta iota; cbn [log heap next_loc length app].

Lemma eq_str_true (v : option string) (lit : string) :
  eq_str v lit = true <-> v = Some lit.
Proof.
  destruct v as [s|]; cbn; [|by split].
  rewrite String.eqb_eq. split; congruence.
Qed.

Lemma eq_str_false (v : option string) (lit : string) :
  eq_str v lit = false <-> v <> Some lit.
Proof.
  rewrite <- eq_str_true. destruct (eq_str v lit); split; congruence.
Qed.

(** C1 (as amended).  A run of the main program that ends normally is the
    linear flow: parse the arguments, load the dataset, add the edge data for
    link prediction, construct the model of the named class, construct
    [GLTSearch] and call [prune()] on it.  Nothing of [baseline] happens in
    between: its call is commented out. *)
Theorem main_flow_without_baseline (fw : framework) (argv : list string)
    (args : Namespace.t) :
  fw _ (ParseArgs parser argv) 0%nat = inr args ->
  fst (run (main fw argv)) = Normal tt ->
  (exists cls,
      constructor_named (lower (Namespace.model args)) = Some cls
      /\ map event_name (log (snd (run (main fw argv))))
         = flow (eq_str (Namespace.task args) "link_prediction") cls)
  /\ (exists trainer,
        omap searched (log (snd (run (main fw argv)))) = [trainer]
        /\ omap pruned (log (snd (run (main fw argv)))) = [trainer])
  /\ existsb baseline_event (log (snd (run (main fw argv)))) = false.
Proof.
  intros Hargs. unfold constructor_named. unfold_main.
  repeat next_case fw.
  all: cbn [fst snd log]; intros Hnormal; try discriminate Hnormal.
  all: repeat split; eauto.
Qed.

(** What a rule of the logic says about one run. *)
Lemma triple_run {A} (p : Py A) (Q : post A) (w : world) :
  triple p Q -> Q (fst (p w)) (new_events w (snd (p w))).
Proof.
  intros Hp. destruct (Hp w) as (l & Hl & HQ).
  unfold new_events. by rewrite Hl, drop_app_length.
Qed.

(** C3.  With a model name whose lowercase form is none of "gcn", "gin",
    "gat" the run does not end normally, and it ends with the script's
    ValueError for the model unless a library call before the test raised;
    with one of the three names the script raises no ValueError. *)
Theorem model_name_is_validated (fw : framework) (argv : list string)
    (args : Namespace.t) :
  fw _ (ParseArgs parser argv) 0%nat = inr args ->
  (lower (Namespace.model args) <> "gcn" ->
   lower (Namespace.model args) <> "gin" ->
   lower (Namespace.model args) <> "gat" ->
   fst (run (main fw argv)) <> Normal tt
   /\ (omap raised_by (log (snd (run (main fw argv)))) = [] ->
       fst (run (main fw argv)) = Raise model_error))
  /\ (lower (Namespace.model args) = "gcn"
      \/ lower (Namespace.model args) = "gin"
      \/ lower (Namespace.model args) = "gat" ->
      forall msg, fst (run (main fw argv)) <> Raise (ValueError msg)).
Proof.
  intros Hargs. unfold_main.
  repeat next_case fw.
  all: cbn [fst snd log omap raised_by].
  all: repeat match goal with
         | H : (_ =? _)%string = true |- _ => apply String.eqb_eq in H
         | H : (_ =? _)%string = false |- _ => apply String.eqb_neq in H
         end.
  all: split;
    [ intros ? ? ?; split; [ try done | intros Hq; try done ]
    | intros Hname msg; try done ].
  all: try (cbn in Hq; discriminate Hq).
  all: destruct Hname as [?|[?|?]]; congruence.
Qed.

(** C5.  The constructor calls of a run: none when the lowercased name is
    not one of the three; otherwise at most one, of the class of that name,
    with the dataset's feature count as [in_channels], 512 hidden channels
    and 2 layers; and one when the run ends normally. *)
Theorem constructor_selected_by_lowercased_name (fw : framework)
    (argv : list string) (args : Namespace.t) :
  fw _ (ParseArgs parser argv) 0%nat = inr args ->
  match constructor_named (lower (Namespace.model args)) with
  | None => omap constructed (log (snd (run (main fw argv)))) = []
  | Some cls =>
      omap constructed (log (snd (run (main fw argv)))) = []
      \/ exists num_node_features,
           omap returned_features (log (snd (run (main fw argv))))
           = [num_node_features]
           /\ omap constructed (log (snd (run (main fw argv))))
              = [(cls, {| in_channels := num_node_features;
                          output_channels := 512;
                          hidden_channels := 512;
                          num_layers := 2 |})]
  end
  /\ (fst (run (main fw argv)) = Normal tt ->
      length (omap constructed (log (snd (run (main fw argv))))) = 1%nat).
Proof.
  intros Hargs. unfold constructor_named. unfold_main.
  repeat next_case fw.
  all: cbn [fst snd log]; split; [|intros Hnormal; try discriminate Hnormal]; eauto.
Qed.

(** C6.  What is handed to [GLTSearch]: for the task "link_prediction" the
    model that was constructed, in a [LinkPredictor], and the graph that was
    loaded with, in addition, the two attributes that [generate_edge_data]
    assigns; for every other task the model as constructed and the graph as
    loaded, with no negative sampling.  The model that was constructed is
    the one of the single constructor call, with the parameters this call
    returned, by name and in the store. *)
Theorem link_prediction_adaptation (fw : framework) (argv : list string)
    (args : Namespace.t) (kw : GLTSearch.t) :
  fw _ (ParseArgs parser argv) 0%nat = inr args ->
  In kw (omap searched (log (snd (run (main fw argv))))) ->
  exists data cls kwargs params init,
    omap returned_data (log (snd (run (main fw argv)))) = [data]
    /\ (omap constructed (log (snd (run (main fw argv)))) = [(cls, kwargs)]
        /\ omap returned_parameters (log (snd (run (main fw argv)))) = [init]
        /\ omap moved (log (snd (run (main fw argv)))) = [BasicGNN cls kwargs params]
        /\ map fst params = map fst init
        /\ forall i l t,
             map snd params !! i = Some l -> map snd init !! i = Some t ->
             heap (snd (run (main fw argv))) !! l = Some t)
    /\ (Namespace.task args = Some "link_prediction" ->
        exists negative_edges,
          omap returned_negatives (log (snd (run (main fw argv)))) = [negative_edges]
          /\ GLTSearch.module kw = LinkPredictor (BasicGNN cls kwargs params)
          /\ Data.edges (GLTSearch.graph kw)
             = Some (Data.edge_index data ++ negative_edges)%list
          /\ Data.edge_labels (GLTSearch.graph kw)
             = Some (replicate (length negative_edges) 0%Z
                     ++ replicate (length (Data.edge_index data)) 1%Z)%list
          /\ loaded_attributes (GLTSearch.graph kw) = loaded_attributes data)
    /\ (Namespace.task args <> Some "link_prediction" ->
        omap returned_negatives (log (snd (run (main fw argv)))) = []
        /\ GLTSearch.module kw = BasicGNN cls kwargs params
        /\ GLTSearch.graph kw = data).
Proof.
  intros Hargs. unfold_main.
  repeat next_case fw.
  all: cbn [fst snd log heap]; intros Hin; cbn in Hin; try done.
  all: destruct Hin as [<-|[]].
  all: repeat match goal with
         | H : eq_str _ _ = true |- _ => apply eq_str_true in H
         | H : eq_str _ _ = false |- _ => apply eq_str_false in H
         end.
  all: do 5 eexists; split; [reflexivity|]; split;
         [split; [reflexivity|]; split; [reflexivity|]; split; [reflexivity|];
          split; eassumption|].
  all: split; intros Htask; try done.
  all: cbn; eauto 10.
Qed.

(** ** Exceptions *)

Lemma faithful_call {A} (c : call A) (r : exception + A) :
  faithful A (of_result r) [Call c r].
Proof. by destruct r. Qed.

Lemma faithful_baseline fw model graph task verbose :
  triple (baseline fw model graph task verbose) (faithful unit).
Proof. apply (seq_baseline faithful); intros; by apply faithful_call || done. Qed.

(** The call that raised decides the outcome. *)
Lemma faithful_raised {A} (o : outcome A) (l : list event) (ev : event) (e : exception) :
  faithful A o l -> In ev l -> raised_by ev = Some e -> o = Raise (LibraryError e).
Proof.
  unfold faithful. intros Hl Hin Hev.
  assert (e ∈ omap raised_by l) as He.
  { apply list_elem_of_omap. exists ev. split; [by apply list_elem_of_In | done]. }
  rewrite Hl in He. destruct o as [a|[msg|e']]; try by apply elem_of_nil in He.
  by apply list_elem_of_singleton in He as ->.
Qed.

(** C7.  When a library call raises, during the main program or during
    [baseline], the run ends with that exception: nothing of the script
    catches or replaces it. *)
Theorem library_exceptions_propagate (fw : framework) (ev : event) (e : exception) :
  raised_by ev = Some e ->
  (forall argv,
      In ev (log (snd (run (main fw argv)))) ->
      fst (run (main fw argv)) = Raise (LibraryError e))
  /\ (forall model graph task verbose w,
        In ev (new_events w (snd (baseline fw model graph task verbose w))) ->
        fst (baseline fw model graph task verbose w) = Raise (LibraryError e)).
Proof.
  intros Hev. split.
  - intros argv Hin.
    eapply faithful_raised; [|exact Hin|exact Hev].
    exact (triple_run _ _ empty_world (faithful_main fw argv)).
  - intros model graph task verbose w Hin.
    eapply faithful_raised; [|exact Hin|exact Hev].
    apply triple_run, faithful_baseline.
Qed.

(** ** An unsupported task *)

Section Unsupported.

Variable fw : framework.
Variable task : option string.
Hypothesis not_node_classification : eq_str task "node_classification" = false.
Hypothesis not_link_prediction : eq_str task "link_prediction" = false.

Lemma rejects_after {A B} (m : Py A) (k : A -> Py B) :
  triple m (no_own_error A) -> (forall a, triple (k a) (rejects task B)) ->
  triple (m ≫= k) (rejects task B).
Proof.
  intros Hm Hk. eapply triple_bind with (R := fun _ => rejects task B);
    [exact Hm | exact Hk | |].
  - intros [msg|e] l; by cbn.
  - by intros a l1 o l2 _ Ho.
Qed.

Lemma rejects_first {A B} (m : Py A) (k : A -> Py B) :
  triple m (rejects task A) -> triple (m ≫= k) (rejects task B).
Proof.
  intros Hm w. destruct (Hm w) as (l & Hl & HQ). rewrite bind_run.
  destruct (m w) as [[a|e] w1]; cbn in *; [done|]. by exists l.
Qed.

Lemma rejects_train_epoch model graph loss_fn optimizer :
  triple (train_epoch fw model graph task loss_fn optimizer) (rejects task tensor).
Proof.
  unfold train_epoch. rewrite not_node_classification, not_link_prediction.
  apply rejects_after; [by apply triple_ext; intros [?|?]|]; intros _.
  apply rejects_after; [by apply triple_ext; intros [?|?]|]; intros _.
  apply rejects_first. by apply triple_raise.
Qed.

Lemma rejects_baseline model graph verbose :
  triple (baseline fw model graph task verbose) (rejects task unit).
Proof.
  unfold baseline, get_state_dict.
  apply rejects_after; [by apply triple_perform|]; intros initial_params.
  apply rejects_after; [by apply triple_ext; intros [?|?]|]; intros _.
  apply rejects_first.
  eapply triple_with with (P := no_own_error unit) (L := fun _ _ => True)
                          (R := rejects task (float * float)).
  - by apply triple_ext; intros [?|?].
  - change epochs with (0%nat :: seq 1 199). cbn [for_each].
    apply rejects_first. unfold epoch_body.
    apply rejects_first, rejects_train_epoch.
  - by apply triple_perform.
  - by intros [msg|e] l.
  - by intros l1 o l2 l3 _ Ho _.
Qed.

End Unsupported.

(** C2 (as amended).  For a task that is neither "node_classification" nor
    "link_prediction", [baseline] does not end normally: it raises its
    ValueError for the task in the first epoch, unless a library call before
    the test raised.  The main program does not call [baseline], and the only
    ValueError it raises itself is the one for the model name. *)
Theorem unsupported_task_is_rejected_by_baseline (fw : framework)
    (task : option string) :
  task <> Some "node_classification" ->
  task <> Some "link_prediction" ->
  (forall model graph verbose w,
      fst (baseline fw model graph task verbose w) <> Normal tt
      /\ (omap raised_by (new_events w (snd (baseline fw model graph task verbose w))) = [] ->
          fst (baseline fw model graph task verbose w) = Raise (unsupported_task task)))
  /\ (forall argv,
        existsb baseline_event (log (snd (run (main fw argv)))) = false
        /\ forall msg, fst (run (main fw argv)) = Raise (ValueError msg) ->
                       ValueError msg = model_error).
Proof.
  intros Hnc%eq_str_false Hlp%eq_str_false. split.
  - intros model graph verbose w.
    pose proof (triple_run _ _ w (rejects_baseline fw task Hnc Hlp model graph verbose)) as Hr.
    pose proof (triple_run _ _ w (faithful_baseline fw model graph task verbose)) as Hf.
    unfold rejects, faithful in *.
    destruct (fst (baseline fw model graph task verbose w)) as [[]|[msg|e]]; try done.
    + split; [done|]. by rewrite Hr.
    + split; [done|]. rewrite Hf. done.
  - intros argv. split.
    + exact (triple_run _ _ empty_world (no_baseline_main fw argv)).
    + exact (triple_run _ _ empty_world (only_model_error_main fw argv)).
Qed.

(** ** The best epoch *)

(** [>] on floats is a strict order on the values that are not NaN. *)
Lemma gt_nan (a : float) : gt a NaN = false.
Proof. by destruct a. Qed.

Lemma gt_number (a b : float) : gt a b = true -> a <> NaN /\ b <> NaN.
Proof. destruct a, b; cbn; by intros. Qed.

Lemma gt_finite (p q : Q) : gt (Finite p) (Finite q) = true <-> (q < p)%Q.
Proof.
  cbn. rewrite negb_true_iff, <- not_true_iff_false, Qle_bool_iff.
  split; [apply Qnot_le_lt | apply Qlt_not_le].
Qed.

Lemma gt_irrefl (a : float) : gt a a = false.
Proof.
  destruct a as [|[]|q]; try done. cbn. apply negb_false_iff, Qle_bool_iff, Qle_refl.
Qed.

Lemma gt_asym (a b : float) : gt a b = true -> gt b a = false.
Proof.
  destruct a as [|[]|p], b as [|[]|q]; try done. rewrite gt_finite. intros H.
  apply not_true_iff_false. rewrite gt_finite. by apply Qle_not_lt, Qlt_le_weak.
Qed.

(** Python's [>] decides whether one float exceeds another. *)
Lemma gt_exceeds (a b : float) : gt a b = true <-> exceeds a b.
Proof.
  destruct a as [|[]|p], b as [|[]|q]; cbn [gt exceeds negb andb];
    try apply gt_finite; intuition discriminate.
Qed.

Lemma gt_not_exceeds (a b : float) : gt a b = false <-> ~ exceeds a b.
Proof. rewrite <- gt_exceeds. by destruct (gt a b). Qed.

(** [c <= b < a] gives [c < a], for a number [c]. *)
Lemma gt_above (a b c : float) :
  gt a b = true -> gt c b = false -> c <> NaN -> gt a c = true.
Proof.
  destruct a as [|[]|p], b as [|[]|q], c as [|[]|r]; try done.
  rewrite !gt_finite. intros H1 H2 _.
  apply not_true_iff_false in H2. rewrite gt_finite in H2.
  apply Qnot_lt_le in H2. by eapply Qle_lt_trans.
Qed.

Lemma keep_best_grows (acc s : float * float) :
  keep_best acc s = acc \/ exceeds (fst (keep_best acc s)) (fst acc).
Proof.
  unfold keep_best. destruct (gt (fst s) (fst acc)) eqn:E; [right|by left].
  by apply gt_exceeds.
Qed.

Lemma is_kept_app (scores : list (float * float)) (s : float * float) (k : nat) :
  (k < length scores)%nat -> is_kept (scores ++ [s]) k <-> is_kept scores k.
Proof.
  intros Hk. unfold is_kept. rewrite lookup_app_l by done.
  split; intros (s0 & Hs0 & Hpos & Hbelow); exists s0; (split; [done|]); (split; [done|]);
    intros j s' Hj Hs'.
  - apply (Hbelow j s' Hj). rewrite lookup_app_l by lia. done.
  - apply (Hbelow j s' Hj). rewrite lookup_app_l in Hs' by lia. done.
Qed.

Lemma is_kept_lt (scores : list (float * float)) (k : nat) :
  is_kept scores k -> (k < length scores)%nat.
Proof. intros (s & Hs & _). by eapply lookup_lt_Some. Qed.

(** What the loop keeps, by the scores seen so far: the best validation
    score is a number, at least 0.0, that no score seen exceeds; and the pair
    is either still the initial one, if no score exceeded 0.0, or the scores
    of the last epoch kept. *)
Lemma after_epochs_spec (scores : list (float * float)) :
  (fst (after_epochs scores) <> NaN /\ gt 0 (fst (after_epochs scores)) = false)
  /\ (forall k s, scores !! k = Some s -> gt (fst s) (fst (after_epochs scores)) = false)
  /\ ((after_epochs scores = (Finite 0, Finite 0)
       /\ forall k s, scores !! k = Some s -> gt (fst s) 0 = false)
      \/ exists k s, last_kept scores k /\ scores !! k = Some s
                     /\ gt (fst s) 0 = true /\ after_epochs scores = s).
Proof.
  unfold after_epochs.
  induction scores as [|s scores IH] using rev_ind.
  - cbn. split; [done|]. split; [done|]. left. split; [done|]. done.
  - destruct IH as ([Hnum Hpos] & Hbound & Hcase). rewrite foldl_app. cbn [foldl].
    set (acc := foldl keep_best (Finite 0, Finite 0) scores) in *.
    unfold keep_best. destruct (gt (fst s) (fst acc)) eqn:E.
    + cbn [fst].
      assert (gt (fst s) 0 = true) as Hs by (by eapply gt_above).
      assert (forall k s', scores !! k = Some s' ->
                fst s' = NaN \/ gt (fst s) (fst s') = true) as Hbelow.
      { intros k s' Hk. destruct (fst s') as [|n|q] eqn:Es'; [by left|right..];
          (eapply gt_above; [exact E| |done]); rewrite <- Es'; eauto. }
      split; [split; [exact (proj1 (gt_number _ _ E)) | by apply gt_asym]|]. split.
      * intros k s' Hk. apply lookup_app_Some in Hk as [Hk|[_ Hk]].
        -- destruct (Hbelow k s' Hk) as [->|H]; [done | by apply gt_asym].
        -- apply list_lookup_singleton_Some in Hk as [_ <-]. apply gt_irrefl.
      * right. exists (length scores), s. split; [|split; [|split]].
        -- split.
           ++ exists s. split; [by rewrite lookup_app_r, Nat.sub_diag by lia|].
              split; [by apply gt_exceeds|].
              intros j s' Hj Hs'. rewrite lookup_app_l in Hs' by done.
              destruct (Hbelow j s' Hs') as [?|?]; [by left|right; by apply gt_exceeds].
           ++ intros k' Hk' Hrec%is_kept_lt. rewrite length_app in Hrec. cbn in Hrec. lia.
        -- by rewrite lookup_app_r, Nat.sub_diag by lia.
        -- done.
        -- by destruct s.
    + split; [done|]. split.
      * intros k s' Hk. apply lookup_app_Some in Hk as [Hk|[_ Hk]]; [eauto|].
        by apply list_lookup_singleton_Some in Hk as [_ <-].
      * destruct Hcase as [[Hacc Hnone]|(k & s0 & [Hrec Hlast] & Hk & Hs0 & Hacc)].
        -- left. split; [done|]. intros k s' Hk.
           apply lookup_app_Some in Hk as [Hk|[_ Hk]]; [eauto|].
           apply list_lookup_singleton_Some in Hk as [_ <-].
           by rewrite Hacc in E.
        -- right. exists k, s0. pose proof (lookup_lt_Some _ _ _ Hk) as Hlt.
           split; [|split; [|split]]; try done.
           ++ split; [by apply is_kept_app|].
              intros k' Hk' Hrec'.
              destruct (decide (k' < length scores)%nat) as [Hin|Hout].
              ** apply (Hlast k' Hk'). by apply is_kept_app in Hrec'.
              ** pose proof (is_kept_lt _ _ Hrec') as Hlen.
                 rewrite length_app in Hlen. cbn in Hlen.
                 assert (k' = length scores) as -> by lia.
                 destruct Hrec' as (s' & Hs' & _ & Hbelow).
                 rewrite lookup_app_r, Nat.sub_diag in Hs' by lia.
                 injection Hs' as <-.
                 specialize (Hbelow k s0 Hlt). rewrite lookup_app_l in Hbelow by done.
                 specialize (Hbelow Hk). rewrite Hacc in E, Hnum.
                 destruct Hbelow as [Hnan|Hgt%gt_exceeds]; congruence.
           ++ by rewrite lookup_app_l.
Qed.

Lemma on_normal_bind {A B} (m : Py A) (k : A -> Py B)
    (P : A -> list event -> Prop) (R : A -> B -> list event -> Prop)
    (Q : B -> list event -> Prop) :
  triple m (on_normal P) ->
  (forall a, triple (k a) (on_normal (R a))) ->
  (forall a l1 b l2, P a l1 -> R a b l2 -> Q b (l1 ++ l2)%list) ->
  triple (m ≫= k) (on_normal Q).
Proof.
  intros Hm Hk Hseq.
  eapply triple_bind with (R := fun a => on_normal (R a)); [exact Hm | exact Hk | |].
  - done.
  - intros a l1 [b|e] l2 HP HR; cbn in *; eauto.
Qed.

Lemma unscored_on_normal {A} (p : Py A) :
  triple p (unscored A) -> triple p (on_normal (fun _ l => omap scored l = [])).
Proof. intros Hp. eapply triple_weaken; [exact Hp|]. by intros [a|e] l. Qed.

Lemma unscored_call {A} (c : call A) (r : exception + A) :
  scored (Call c r) = None -> unscored A (of_result r) [Call c r].
Proof. unfold unscored. cbn. by intros ->. Qed.

Section Scores.

Variable fw : framework.

(** A statement that makes no scoring call, then the rest. *)
Lemma scores_after {A B} (m : Py A) (k : A -> Py B) (Q : B -> list (float * float) -> Prop) :
  triple m (unscored A) ->
  (forall a, triple (k a) (on_normal (fun b l => Q b (omap scored l)))) ->
  triple (m ≫= k) (on_normal (fun b l => Q b (omap scored l))).
Proof.
  intros Hm Hk.
  eapply on_normal_bind with (R := fun _ b l => Q b (omap scored l));
    [apply unscored_on_normal, Hm | exact Hk |].
  intros a l1 b l2 H1 H2. cbn in *. by rewrite omap_app, H1.
Qed.

Ltac unscored_part :=
  first
    [ apply (seq_Module_call unscored (@unscored_call))
    | apply (seq_train_epoch unscored (@unscored_call)); done
    | apply (seq_load_state_dict unscored (@unscored_call))
    | apply (seq_get_state_dict unscored (@unscored_call))
    | apply triple_ext; intros [?|?]; reflexivity
    | apply triple_perform; reflexivity ].

Lemma scores_eval_epoch model graph task :
  triple (eval_epoch fw model graph task)
    (on_normal (fun s l => omap scored l = [s])).
Proof.
  unfold eval_epoch, get_edges, get_edge_labels.
  apply (scores_after _ _ (fun s sc => sc = [s])); [unscored_part|]; intros _.
  destruct (eq_str task "node_classification");
    [|destruct (eq_str task "link_prediction")].
  - repeat (apply (scores_after _ _ (fun s sc => sc = [s])); [unscored_part|]; intros ?).
    apply triple_ext. by intros [?|?].
  - repeat (apply (scores_after _ _ (fun s sc => sc = [s])); [unscored_part|]; intros ?).
    apply triple_ext. by intros [?|?].
  - by apply triple_raise.
Qed.

Lemma scores_epoch_body model graph task loss_fn optimizer epoch acc :
  triple (epoch_body fw model graph task loss_fn optimizer epoch acc)
    (on_normal (fun acc' l => exists s, omap scored l = [s] /\ acc' = keep_best acc s)).
Proof.
  unfold epoch_body.
  apply (scores_after _ _ (fun acc' sc => exists s, sc = [s] /\ acc' = keep_best acc s));
    [unscored_part|]; intros loss.
  eapply on_normal_bind with
    (R := fun s acc' l => omap scored l = [] /\ acc' = keep_best acc s);
    [apply scores_eval_epoch | |].
  - intros s. cbv zeta.
    apply (scores_after _ _ (fun acc' sc => sc = [] /\ acc' = keep_best acc s));
      [unscored_part|]; intros l.
    apply (scores_after _ _ (fun acc' sc => sc = [] /\ acc' = keep_best acc s));
      [unscored_part|]; intros _.
    by apply triple_ret.
  - intros s l1 acc' l2 H1 [H2 ->]. exists s. by rewrite omap_app, H1, H2.
Qed.

Lemma scores_for_each model graph task loss_fn optimizer (l : list nat) acc :
  triple (for_each l (epoch_body fw model graph task loss_fn optimizer) acc)
    (on_normal (fun acc' evs =>
       length (omap scored evs) = length l
       /\ acc' = foldl keep_best acc (omap scored evs))).
Proof.
  revert acc. induction l as [|epoch l IH]; intros acc; cbn [for_each].
  - by apply triple_ret.
  - eapply on_normal_bind; [apply scores_epoch_body | intros acc'; apply IH |].
    intros acc' l1 acc'' l2 (s & Hs & ->) [Hlen ->].
    rewrite omap_app, Hs. cbn. by rewrite Hlen.
Qed.

Lemma reports_after (l1 l2 : list event) :
  omap scored l1 = [] -> reports l2 -> reports (l1 ++ l2).
Proof.
  unfold reports. intros H1 [Hlen Hlast]. rewrite omap_app, H1. cbn [app].
  split; [done|]. by rewrite last_app, Hlast.
Qed.

Lemma scores_baseline model graph task verbose :
  triple (baseline fw model graph task verbose) (on_normal (fun _ => reports)).
Proof.
  unfold baseline.
  eapply on_normal_bind with (P := fun _ l => omap scored l = []) (R := fun _ _ => reports);
    [apply unscored_on_normal; unscored_part | | by intros; apply reports_after].
  intros initial_params. cbv zeta.
  eapply on_normal_bind with (P := fun _ l => omap scored l = []) (R := fun _ _ => reports);
    [apply unscored_on_normal; unscored_part | | by intros; apply reports_after].
  intros _.
  eapply on_normal_bind with
    (P := fun acc l => length (omap scored l) = 200%nat
                       /\ acc = after_epochs (omap scored l))
    (R := fun acc _ l2 =>
       omap scored l2 = []
       /\ last l2 = Some (Print [PyStr "[BASELINE] Final test performance:";
                                 PyFloat (snd acc)])).
  - eapply triple_with with
      (P := fun _ l => omap scored l = [])
      (L := fun _ l => omap scored l = [])
      (R := on_normal (fun acc l => length (omap scored l) = length epochs
                                    /\ acc = foldl keep_best (Finite 0, Finite 0) (omap scored l))).
    + apply triple_ext. by intros [?|?].
    + apply scores_for_each.
    + by apply triple_perform.
    + done.
    + intros l1 [acc|e] l2 l3 H1 H2 H3; [|done]. cbn in *.
      by rewrite !omap_app, H1, H3, app_nil_r.
  - intros acc.
    eapply on_normal_bind with (P := fun _ l => omap scored l = [])
      (R := fun _ _ l2 => l2 = [Print [PyStr "[BASELINE] Final test performance:";
                                       PyFloat (snd acc)]]);
      [apply unscored_on_normal; unscored_part | intros _; by apply triple_emit |].
    intros _ l1 _ l2 H1 ->. rewrite omap_app, H1. split; [done|].
    by rewrite last_snoc.
  - intros acc l1 _ l2 [Hlen ->] [H2 Hlast]. unfold reports.
    rewrite omap_app, H2, app_nil_r. split; [done|]. by rewrite last_app, Hlast.
Qed.

End Scores.

(** C9 (as amended).  In [baseline], an epoch leaves [best_val_score] as it
    is or makes it strictly greater; and when [baseline] returns, 200 epochs
    were scored and the test score it prints last is that of the last epoch
    kept: the last one whose validation score exceeded 0.0 and every earlier
    validation score that is not NaN.  It is 0.0 if no validation score
    exceeded 0.0. *)
Theorem baseline_reports_the_best_epoch (fw : framework) (model : nn_Module)
    (graph : Data.t) (task : option string) (verbose : bool) (w : world) :
  fst (baseline fw model graph task verbose w) = Normal tt ->
  (forall loss_fn optimizer epoch acc w0 acc' w1,
      epoch_body fw model graph task loss_fn optimizer epoch acc w0 = (Normal acc', w1) ->
      acc' = acc \/ exceeds (fst acc') (fst acc))
  /\ exists scores final,
       omap scored (new_events w (snd (baseline fw model graph task verbose w))) = scores
       /\ length scores = 200%nat
       /\ last (new_events w (snd (baseline fw model graph task verbose w)))
          = Some (Print [PyStr "[BASELINE] Final test performance:"; PyFloat final])
       /\ ((exists k s, scores !! k = Some s /\ exceeds (fst s) 0) ->
           exists k s, last_kept scores k /\ scores !! k = Some s /\ final = snd s)
       /\ ((forall k s, scores !! k = Some s -> ~ exceeds (fst s) 0) -> final = 0%Q).
Proof.
  intros Hnormal. split.
  - intros loss_fn optimizer epoch acc w0 acc' w1 Hbody.
    pose proof (triple_run _ _ w0
      (scores_epoch_body fw model graph task loss_fn optimizer epoch acc)) as H.
    rewrite Hbody in H. destruct H as (s & _ & ->). apply keep_best_grows.
  - pose proof (triple_run _ _ w (scores_baseline fw model graph task verbose)) as H.
    rewrite Hnormal in H. destruct H as [Hlen Hlast].
    set (scores := omap scored _) in *.
    exists scores, (snd (after_epochs scores)).
    split; [done|]. split; [done|]. split; [done|].
    destruct (after_epochs_spec scores)
      as (_ & _ & [[Hacc Hnone]|(k & s & Hrec & Hk & Hs & Hacc)]).
    + split; [|by rewrite Hacc]. intros (k & s & Hk & Hs%gt_exceeds).
      rewrite (Hnone k s Hk) in Hs. discriminate Hs.
    + split; [|intros Hnone; apply gt_exceeds in Hs; by destruct (Hnone k s Hk)].
      intros _. exists k, s. by rewrite Hacc.
Qed.

(** ** The command line *)

(** All the prefixes of a string. *)
Lemma startswith_prefixes (o p : string) :
  startswith o p = true ->
  In p (map (fun n => String.substring 0 n o) (seq 0 (S (String.length o)))).
Proof.
  intros H. apply in_map_iff. exists (String.length p).
  revert o H. induction p as [|a p IH]; intros o H.
  - split; [by destruct o|]. apply in_seq. cbn. lia.
  - destruct o as [|b o]; [done|]. cbn in H.
    apply andb_prop in H as [Hc H]. apply Ascii.eqb_eq in Hc as ->.
    destruct (IH o H) as [Hsub Hin]. apply in_seq in Hin. split.
    + cbn. by rewrite Hsub.
    + apply in_seq. cbn in *. lia.
Qed.

(** The text before "=" starts the string. *)
Lemma startswith_split_eq (s : string) : startswith s (fst (split_eq s)) = true.
Proof.
  induction s as [|c s IH]; [done|]. cbn [split_eq].
  destruct (Ascii.eqb c "="); [done|]. cbn. rewrite Ascii.eqb_refl. exact IH.
Qed.

Lemma startswith_trans (o s p : string) :
  startswith o s = true -> startswith s p = true -> startswith o p = true.
Proof.
  revert o s. induction p as [|a p IH]; intros o s Hos Hsp; [by destruct o|].
  destruct s as [|b s]; [by cbn in Hsp|]. destruct o as [|c o]; [by cbn in Hos|]. cbn in *.
  apply andb_prop in Hos as [H1 Hos]. apply andb_prop in Hsp as [H2 Hsp].
  apply Ascii.eqb_eq in H1 as ->. rewrite H2. cbn. by eapply IH.
Qed.

Lemma startswith_refl (s : string) : startswith s s = true.
Proof. induction s as [|c s IH]; [done|]. cbn. rewrite Ascii.eqb_refl. exact IH. Qed.

(** An argument whose name starts no option string is not that option
    string, and starts none. *)
Lemma other_name (s o : string) :
  startswith o (fst (split_eq s)) = false ->
  String.eqb s o = false
  /\ String.eqb (fst (split_eq s)) o = false
  /\ startswith o s = false.
Proof.
  intros H. split; [|split]; apply not_true_iff_false; intros E;
    apply not_true_iff_false in H; apply H.
  - apply String.eqb_eq in E as ->. apply startswith_split_eq.
  - apply String.eqb_eq in E as <-. apply startswith_refl.
  - eapply startswith_trans; [exact E|]. apply startswith_split_eq.
Qed.

(** What a string is when "=" is split off. *)
Lemma split_eq_spec (s : string) :
  s = fst (split_eq s)
  \/ exists e, s = (fst (split_eq s) ++ String "=" e)%string.
Proof.
  induction s as [|c s IH]; [by left|]. cbn.
  destruct (Ascii.eqb_spec c "=") as [->|Hc]; cbn.
  - right. by exists s.
  - destruct IH as [IH|[e IH]]; [left|right; exists e].
    + by f_equal.
    + change (String c s = String c (fst (split_eq s) ++ String "=" e)). by f_equal.
Qed.

(** A name starts no option string, or it is one of their prefixes. *)
Lemma name_cases (N : string) :
  (forall o, In o (map fst (option_string_actions parser)) -> startswith o N = false)
  \/ In N (flat_map
             (fun oa => map (fun n => String.substring 0 n (fst oa))
                          (seq 0 (S (String.length (fst oa)))))
             (option_string_actions parser)).
Proof.
  destruct (existsb (fun oa => startswith (fst oa) N) (option_string_actions parser))
    eqn:E; [right|left].
  - apply existsb_exists in E as (oa & Hin & H). apply in_flat_map.
    exists oa. split; [done|]. by apply startswith_prefixes.
  - intros o (oa & <- & Hin)%in_map_iff.
    apply not_true_iff_false. intros H. apply not_true_iff_false in E. apply E.
    apply existsb_exists. by exists oa.
Qed.

(** The arguments whose name is a prefix of an option string: each by
    evaluation, with any text after "=". *)
Lemma recognize_prefix (s : string) :
  In (fst (split_eq s))
    (flat_map
       (fun oa => map (fun n => String.substring 0 n (fst oa))
                    (seq 0 (S (String.length (fst oa)))))
       (option_string_actions parser)) ->
  recognize parser s = by_the_table s.
Proof.
  intros Hin. pose proof (split_eq_spec s) as Hs.
  remember (fst (split_eq s)) as N eqn:HN. clear HN. vm_compute in Hin.
  destruct Hs as [Hs|[e Hs]];
    repeat (destruct Hin as [Hin|Hin];
            [subst N s; reflexivity|]);
    done.
Qed.

Lemma lookup_option_none (acts : list (string * option_action)) (s : string) :
  (forall oa, In oa acts -> String.eqb s (fst oa) = false) -> lookup_option acts s = None.
Proof.
  unfold lookup_option. induction acts as [|oa acts IH]; intros H; [done|].
  cbn [List.find]. rewrite (H oa) by (by left). apply IH. intros oa' Hin. apply H. by right.
Qed.

Lemma filter_none {A} (f : A -> bool) (l : list A) :
  (forall x, In x l -> f x = false) -> List.filter f l = [].
Proof.
  induction l as [|x l IH]; intros H; [done|].
  cbn [List.filter]. rewrite (H x) by (by left). apply IH. intros x' Hin. apply H. by right.
Qed.

Lemma existsb_none {A} (f : A -> bool) (l : list A) :
  (forall x, In x l -> f x = false) -> existsb f l = false.
Proof.
  induction l as [|x l IH]; intros H; [done|].
  cbn [existsb]. rewrite (H x) by (by left). apply IH. intros x' Hin. apply H. by right.
Qed.

(** The table has the option strings of the parser. *)
Lemma flag_table_options :
  map fst flag_table = map fst (option_string_actions parser).
Proof. reflexivity. Qed.

Ltac compare_char c l :=
  let E := fresh "E" in
  let E' := fresh "E" in
  destruct (Ascii.eqb_spec c l) as [->|E];
  [|assert (Ascii.eqb l c = false) as E' by (apply Ascii.eqb_neq; congruence);
    apply Ascii.eqb_neq in E].

Ltac use_facts :=
  repeat match goal with
         | Hi : ?t = false |- context [?t] => rewrite Hi
         end.

Section Other.

Variable s : string.
Hypothesis other :
  forall o, In o (map fst (option_string_actions parser)) ->
    startswith o (fst (split_eq s)) = false.

Lemma other_option oa :
  In oa (option_string_actions parser) ->
  String.eqb s (fst oa) = false
  /\ String.eqb (fst (split_eq s)) (fst oa) = false
  /\ startswith (fst oa) s = false
  /\ startswith (fst oa) (fst (split_eq s)) = false.
Proof.
  intros Hin. assert (startswith (fst oa) (fst (split_eq s)) = false) as H
    by (by apply other, in_map).
  destruct (other_name s (fst oa) H) as (? & ? & ?). done.
Qed.

Lemma other_flag on :
  In on flag_table -> startswith (fst on) (fst (split_eq s)) = false.
Proof. intros Hin. apply other. rewrite <- flag_table_options. by apply in_map. Qed.

Lemma other_not_separator : String.eqb s "--" = false.
Proof.
  apply not_true_iff_false. intros ->%String.eqb_eq.
  by pose proof (other "--help" ltac:(cbn; tauto)).
Qed.

Lemma other_lookup : lookup_option (option_string_actions parser) s = None.
Proof. apply lookup_option_none. intros oa Hin. by apply other_option. Qed.

Lemma other_lookup_name :
  lookup_option (option_string_actions parser) (fst (split_eq s)) = None.
Proof. apply lookup_option_none. intros oa Hin. by apply other_option. Qed.

End Other.

(** The arguments whose name starts no option string: an option only by
    a short flag in their first two characters. *)
Lemma recognize_other (s : string) :
  (forall o, In o (map fst (option_string_actions parser)) ->
     startswith o (fst (split_eq s)) = false) ->
  recognize parser s = by_the_table s.
Proof.
  intros other.
  pose proof (other_not_separator s other) as Hsep.
  pose proof (other_lookup s other) as Hlookup.
  pose proof (other_lookup_name s other) as Hname.
  pose proof (other_option s other) as Hoption.
  pose proof (other_flag s other) as Hflag.
  unfold recognize, by_the_table. rewrite Hsep. clear Hsep.
  destruct s as [|c1 s1]; [by pose proof (other "-h" ltac:(cbn; tauto))|].
  compare_char c1 "-"%char.
  - destruct s1 as [|c2 s2]; [by pose proof (other "-h" ltac:(cbn; tauto))|].
    unfold parse_optional. rewrite Hlookup, Hname.
    change (negb (Ascii.eqb "-" "-")) with false. cbv iota.
    change (String.length (String "-" (String c2 s2)) =? 1)%nat with false. cbv iota.
    assert (match snd (split_eq (String "-" (String c2 s2))) with
            | Some _ => None
            | None => None
            end = @None option_action) as -> by (by destruct (snd _)).
    unfold get_option_tuples, names, flag_name.
    compare_char c2 "-"%char.
    + change (startswith (String "-" (String "-" s2)) "--") with true. cbv iota.
      rewrite filter_none by (intros oa Hin; by apply Hoption).
      rewrite filter_none by (intros on Hin; by rewrite Hflag).
      rewrite existsb_none by (intros on Hin; by rewrite Hflag).
      reflexivity.
    + assert (startswith (String "-" (String c2 s2)) "--" = false) as ->
        by (cbn; by rewrite E).
      cbv iota.
      assert (String.substring 0 2 (String "-" (String c2 s2)) = String "-" (String c2 ""))
        as -> by (by destruct s2).
      rewrite (filter_ext_in _
                 (fun oa => String.eqb (fst oa) (String "-" (String c2 ""))))
        by (intros oa Hin; destruct (Hoption oa Hin) as (_ & _ & -> & _);
            apply orb_false_r).
      compare_char c2 "h"%char; [reflexivity|].
      compare_char c2 "d"%char; [reflexivity|].
      compare_char c2 "m"%char; [reflexivity|].
      compare_char c2 "v"%char; [reflexivity|].
      rewrite filter_none.
      2:{ intros oa Hin. cbn in Hin.
          repeat (destruct Hin as [<-|Hin]); try done;
            cbn [String.eqb fst]; use_facts; reflexivity. }
      rewrite filter_none.
      2:{ intros on Hin. cbn in Hin.
          repeat (destruct Hin as [<-|Hin]); try done;
            cbn [startswith fst]; use_facts; reflexivity. }
      reflexivity.
  - unfold parse_optional, names, flag_name. rewrite E. cbn [negb].
    assert (startswith (String c1 s1) "--" = false) as -> by (cbn; by rewrite E).
    rewrite filter_none; [reflexivity|].
    intros on Hin. cbn in Hin.
    repeat (destruct Hin as [<-|Hin]); try done;
      cbn [startswith String.substring fst]; use_facts; reflexivity.
Qed.

(** The main program starts with [parse_args] on these declarations. *)
Lemma main_starts_with_parse_args (fw : framework) (argv : list string) :
  triple (main fw argv)
    (fun _ l => exists r l', l = Call (ParseArgs parser argv) r :: l').
Proof.
  unfold main, new_gnn, generate_edge_data, print.
  eapply triple_bind with
    (P := fun _ l => exists r, l = [Call (ParseArgs parser argv) r])
    (R := fun _ => anything unit).
  - apply triple_ext. intros r. by exists r.
  - follow anything ltac:(exact I).
  - intros e l [r ->]. by eexists _, _.
  - intros a l1 o l2 [r ->] _. by eexists _, _.
Qed.



(** ** The parameters after baseline *)

Lemma find_param_own (sd : state_dict) (kv : string * loc) :
  NoDup (map fst sd) -> In kv sd -> find_param (fst kv) sd = Some (snd kv).
Proof.
  unfold find_param. induction sd as [|kv' sd IH]; intros Hnodup Hin; [done|].
  cbn. apply NoDup_cons in Hnodup as [Hfresh Hnodup].
  destruct Hin as [->|Hin].
  - by rewrite String.eqb_refl.
  - destruct (String.eqb_spec (fst kv) (fst kv')) as [Heq|Hne]; [|by apply IH].
    destruct Hfresh. rewrite <- Heq. apply list_elem_of_In, in_map, Hin.
Qed.

Lemma copy_own (sd : state_dict) (kv : string * loc) (w : world) :
  find_param (fst kv) sd = Some (snd kv) -> copy_ sd kv tt w = (Normal tt, w).
Proof.
  intros Hfind. unfold copy_. rewrite Hfind. rewrite bind_run. unfold read.
  destruct (heap w !! snd kv) as [t|] eqn:Ht; [|done].
  unfold write. rewrite insert_id by done. by destruct w.
Qed.

(** Loading into a model the state dict that [state_dict()] gave for it
    copies every parameter onto itself: the store does not change. *)
Lemma load_own_state_dict (model : nn_Module) (w : world) :
  NoDup (map fst (named_parameters model)) ->
  load_state_dict model (named_parameters model) w
  = (Normal tt,
     {| heap := heap w; next_loc := next_loc w;
        log := (log w ++ [Call (LoadStateDict model (named_parameters model)) (inr tt)])%list |}).
Proof.
  intros Hnodup. unfold load_state_dict. rewrite bind_run.
  assert (forall l, (forall kv, In kv l -> In kv (named_parameters model)) ->
            for_each l (copy_ (named_parameters model)) tt w = (Normal tt, w)) as Hloop.
  { induction l as [|kv l IH]; intros Hl; [done|]. cbn [for_each].
    rewrite bind_run, copy_own; [apply IH|apply find_param_own]; try done.
    - intros kv' Hkv'. apply Hl. by right.
    - apply Hl. by left. }
  rewrite Hloop by done. rewrite perform_run.
  assert (same_keys (named_parameters model) (named_parameters model) = true) as ->; [|done].
  unfold same_keys. rewrite andb_diag. apply forallb_forall. intros kv Hkv.
  apply bool_decide_eq_true. rewrite find_param_own by done. by eexists.
Qed.

(** C8 (the code at the failing input).  A model with one parameter, zero
    at entry, and an optimizer whose step adds one to it: [baseline] returns,
    and the parameter holds what the 200 steps left, not its value at
    entry. *)
Theorem baseline_keeps_the_trained_parameters :
  fst (baseline (all_return default_args (0.5, 0.25)%Q) toy_model toy_graph
         (Some "node_classification") false toy_world) = Normal tt
  /\ heap toy_world !! 0%nat = Some [0; 0]%Q
  /\ heap (snd (baseline (all_return default_args (0.5, 0.25)%Q) toy_model toy_graph
                  (Some "node_classification") false toy_world)) !! 0%nat
     = Some [200; 200]%Q.
Proof. by vm_compute. Qed.

(** ** The edge data *)

(** What [generate_edge_data] assigns, for the negative edges the sampler
    returned: [edges] is the original edges followed by the negative ones,
    [edge_labels] has one entry for each, and the entries are 0 in the first
    positions, as many as there are negative edges, and 1 after them. *)
Lemma generate_edge_data_assigns (fw : framework) (dataset dataset' : Data.t)
    (w w' : world) :
  generate_edge_data fw dataset w = (Normal dataset', w') ->
  exists negative_edges edge_labels,
    fw _ (NegativeSampling (Data.edge_index dataset)) (length (log w)) = inr negative_edges
    /\ Data.edges dataset' = Some (Data.edge_index dataset ++ negative_edges)%list
    /\ Data.edge_labels dataset' = Some edge_labels
    /\ length edge_labels = length (Data.edge_index dataset ++ negative_edges)%list
    /\ forall k,
         (edge_labels !! k = Some 0%Z <-> (k < length negative_edges)%nat)
         /\ (edge_labels !! k = Some 1%Z
             <-> (length negative_edges <= k
                  < length negative_edges + length (Data.edge_index dataset))%nat).
Proof.
  unfold generate_edge_data. rewrite bind_run. unfold ext at 1. rewrite perform_run.
  destruct (fw _ (NegativeSampling (Data.edge_index dataset)) (length (log w)))
    as [e|negative_edges]; [done|].
  cbn. intros [= <- <-]. eexists _, _. split; [done|]. split; [done|]. split; [done|].
  split; [rewrite !length_app, !length_replicate; lia|].
  intros k. split.
  - split.
    + intros Hk. destruct (decide (k < length negative_edges)%nat); [done|].
      rewrite lookup_app_r in Hk by (rewrite length_replicate; lia).
      by apply lookup_replicate in Hk as [? _].
    + intros Hk. rewrite lookup_app_l by (by rewrite length_replicate).
      by apply lookup_replicate.
  - split.
    + intros Hk. destruct (decide (k < length negative_edges)%nat) as [Hlt|Hge].
      * rewrite lookup_app_l in Hk by (by rewrite length_replicate).
        by apply lookup_replicate in Hk as [? _].
      * rewrite lookup_app_r in Hk by (rewrite length_replicate; lia).
        apply lookup_replicate in Hk as [_ Hk]. rewrite length_replicate in Hk. lia.
    + intros [Hge Hlt]. rewrite lookup_app_r by (rewrite length_replicate; lia).
      apply lookup_replicate. rewrite length_replicate. split; [done|lia].
Qed.

(** C10 (the code at the failing input).  Two original edges and one
    sampled negative edge: [edges] holds the original edges first, but
    [edge_labels] starts with the label of the negative one, so column 0, an
    original edge, is labelled 0, and column 2, the negative edge, is
    labelled 1. *)
Theorem edge_labels_are_not_aligned :
  Data.edge_index toy_graph = [(0, 1); (1, 2)]%Z
  /\ fst (generate_edge_data (all_return default_args (0, 0)%Q) toy_graph empty_world)
     = Normal (set_edge_labels
                 (set_edges toy_graph [(0, 1); (1, 2); (2, 0)]%Z)
                 [0; 1; 1]%Z).
Proof. by vm_compute. Qed.

(** ** Examples *)

(** Every run of [baseline] starts with the call of [state_dict()], so a
    run of [baseline] shows in the log. *)
Lemma baseline_starts_with_state_dict (fw : framework) (model : nn_Module)
    (graph : Data.t) (task : option string) (verbose : bool) :
  triple (baseline fw model graph task verbose)
    (fun _ l => exists l', l = Call (StateDict model) (inr (named_parameters model)) :: l').
Proof.
  pose proof (seq_load_state_dict anything (fun _ _ _ _ => I)) as Hload.
  pose proof (seq_epoch_body anything (fun _ _ _ => I) (fun _ _ => I) fw) as Hbody.
  unfold baseline, get_state_dict, print.
  eapply triple_bind with
    (P := fun _ l => l = [Call (StateDict model) (inr (named_parameters model))])
    (R := fun _ => anything unit).
  - by apply triple_perform.
  - follow anything ltac:(exact I).
  - intros e l ->. by eexists.
  - intros a l1 o l2 -> _. by eexists.
Qed.

(** C1 (counterexample).  With the default arguments and libraries that
    never fail, the main program ends normally and has called [prune()], but
    no event of [baseline] is in its log: no baseline training came before
    the pruning search. *)
Lemma pruning_search_runs_without_baseline :
  fst (run (main quiet [])) = Normal tt
  /\ map event_name (log (snd (run (main quiet []))))
     = ["ArgumentParser.parse_args"; "Planetoid"; "print"; "print"; "dataset[0]";
        "Data.to"; "Data.num_nodes"; "print"; "Data.num_edges"; "print";
        "dataset.num_node_features"; "GCN"; "Module.to"; "GLTSearch";
        "GLTSearch.prune"]
  /\ existsb baseline_event (log (snd (run (main quiet [])))) = false.
Proof. by vm_compute. Qed.

Lemma main_flow_without_baseline_witness :
  map event_name (log (snd (run (main (all_return link_prediction_args (0, 0)%Q) []))))
  = flow true GCN
  /\ existsb baseline_event
       (log (snd (run (main (all_return link_prediction_args (0, 0)%Q) [])))) = false.
Proof.
  destruct (main_flow_without_baseline
              (all_return link_prediction_args (0, 0)%Q) [] link_prediction_args
              ltac:(vm_compute; reflexivity) ltac:(vm_compute; reflexivity))
    as ((cls & Hcls & Hflow) & _ & Hnone).
  vm_compute in Hcls. injection Hcls as <-. exact (conj Hflow Hnone).
Defined.

(** C2 (counterexample).  With the task "foo", which is neither of the two
    supported ones: when every library call returns, the main program ends
    normally, so no statement of the script raised; and with the model name
    "xyz" in addition, the error raised is the one for the model, which
    does not name the task. *)
Lemma unsupported_task_is_not_rejected_by_main :
  Namespace.task unsupported_args = Some "foo"
  /\ fst (run (main (all_return unsupported_args (0, 0)%Q) [])) = Normal tt
  /\ fst (run (main (all_return (with_model unsupported_args "xyz") (0, 0)%Q) []))
     = Raise (ValueError "model must be one of gcn, gin, gat").
Proof. by vm_compute. Qed.

Lemma unsupported_task_is_rejected_by_baseline_witness :
  fst (baseline quiet toy_model toy_graph (Some "foo") false toy_world)
  = Raise (ValueError "foo must be one of node class. or link pred.").
Proof.
  apply (proj1 (unsupported_task_is_rejected_by_baseline quiet (Some "foo")
                  ltac:(discriminate) ltac:(discriminate))).
  vm_compute. reflexivity.
Defined.

Lemma model_name_is_validated_witness :
  fst (run (main (all_return (with_model default_args "xyz") (0, 0)%Q) []))
  = Raise model_error.
Proof.
  apply (proj1 (model_name_is_validated
                  (all_return (with_model default_args "xyz") (0, 0)%Q) []
                  (with_model default_args "xyz") ltac:(vm_compute; reflexivity)));
    try (vm_compute; discriminate).
  vm_compute. reflexivity.
Defined.

Lemma constructor_selected_by_lowercased_name_witness :
  length (omap constructed
            (log (snd (run (main (all_return (with_model default_args "GAT") (0, 0)%Q) [])))))
  = 1%nat.
Proof.
  apply (proj2 (constructor_selected_by_lowercased_name
                  (all_return (with_model default_args "GAT") (0, 0)%Q) []
                  (with_model default_args "GAT") ltac:(vm_compute; reflexivity))).
  vm_compute. reflexivity.
Defined.

Lemma link_prediction_adaptation_witness :
  GLTSearch.module toy_trainer = LinkPredictor toy_model
  /\ Data.edges (GLTSearch.graph toy_trainer) = Some [(0, 1); (1, 2); (2, 0)]%Z
  /\ Data.edge_labels (GLTSearch.graph toy_trainer) = Some [0; 1; 1]%Z.
Proof.
  destruct (link_prediction_adaptation
              (all_return link_prediction_args (0, 0)%Q) [] link_prediction_args
              toy_trainer ltac:(vm_compute; reflexivity)
              ltac:(vm_compute; left; reflexivity))
    as (data & cls & kwargs & params & init & Hdata & (_ & _ & Hmoved & _) & Hlp & _).
  destruct (Hlp ltac:(vm_compute; reflexivity))
    as (neg & Hneg & Hmodule & Hedges & Hlabels & _).
  vm_compute in Hdata, Hneg, Hmoved.
  injection Hdata as <-. injection Hneg as <-. injection Hmoved as <- <- <-.
  clear Hlp. exact (conj Hmodule (conj Hedges Hlabels)).
Defined.

Lemma library_exceptions_propagate_witness :
  fst (run (main (raising_at 1 "OSError: no route to host" quiet) []))
  = Raise (LibraryError "OSError: no route to host").
Proof.
  apply (proj1 (library_exceptions_propagate
                  (raising_at 1 "OSError: no route to host" quiet)
                  (Call (NewPlanetoid "tmp/Cora" "Cora") (inl "OSError: no route to host"))
                  "OSError: no route to host" ltac:(vm_compute; reflexivity)) []).
  vm_compute. right. left. reflexivity.
Defined.

Lemma baseline_reports_the_best_epoch_witness :
  exists scores final,
    omap scored
      (new_events toy_world
         (snd (baseline quiet toy_model toy_graph (Some "node_classification") false toy_world)))
    = scores
    /\ length scores = 200%nat
    /\ last (new_events toy_world
               (snd (baseline quiet toy_model toy_graph (Some "node_classification") false
                       toy_world)))
       = Some (Print [PyStr "[BASELINE] Final test performance:"; PyFloat final])
    /\ ((exists k s, scores !! k = Some s /\ exceeds (fst s) 0) ->
        exists k s, last_kept scores k /\ scores !! k = Some s /\ final = snd s)
    /\ ((forall k s, scores !! k = Some s -> ~ exceeds (fst s) 0) -> final = 0%Q).
Proof.
  apply (proj2 (baseline_reports_the_best_epoch quiet toy_model toy_graph
                  (Some "node_classification") false toy_world
                  ltac:(vm_compute; reflexivity))).
Defined.

(** C9 (counterexample).  The first epoch has the validation score NaN and
    the test score 0.75, every later epoch 0.5 and 0.25.  No later validation
    score strictly exceeds NaN, so the last epoch whose validation score
    strictly exceeded every earlier one is the first epoch; but line 88 does
    not keep it, and keeps the second: the test score printed is 0.25, not
    0.75. *)
Lemma nan_validation_score_is_not_reported :
  fst (baseline nan_first toy_model toy_graph (Some "node_classification") false toy_world)
  = Normal tt
  /\ (exists k s,
        omap scored
          (new_events toy_world
             (snd (baseline nan_first toy_model toy_graph (Some "node_classification")
                     false toy_world))) !! k = Some s
        /\ exceeds (fst s) 0)
  /\ last_record
       (omap scored
          (new_events toy_world
             (snd (baseline nan_first toy_model toy_graph (Some "node_classification")
                     false toy_world)))) 0
  /\ omap scored
       (new_events toy_world
          (snd (baseline nan_first toy_model toy_graph (Some "node_classification")
                  false toy_world))) !! 0%nat
     = Some (NaN, Finite 0.75)
  /\ last (new_events toy_world
             (snd (baseline nan_first toy_model toy_graph (Some "node_classification")
                     false toy_world)))
     = Some (Print [PyStr "[BASELINE] Final test performance:"; PyFloat 0.25])
  /\ PyFloat 0.25 <> PyFloat 0.75.
Proof.
  split; [by vm_compute|].
  split; [exists 1%nat, (Finite 0.5, Finite 0.25); by vm_compute|].
  assert (omap scored
            (new_events toy_world
               (snd (baseline nan_first toy_model toy_graph (Some "node_classification")
                       false toy_world))) !! 0%nat
          = Some (NaN, Finite 0.75)) as Hfirst by (by vm_compute).
  split; [|split; [exact Hfirst|split; [by vm_compute|discriminate]]].
  split.
  - exists (NaN, Finite 0.75). split; [exact Hfirst|]. intros j s' Hj. lia.
  - intros k' Hk' (s & _ & Hbelow).
    specialize (Hbelow 0%nat _ Hk' Hfirst). cbn [fst] in Hbelow.
    by destruct (fst s).
Qed.

Lemma load_own_state_dict_witness :
  heap (snd (load_state_dict toy_model (named_parameters toy_model) toy_world))
  = heap toy_world.
Proof.
  rewrite (load_own_state_dict toy_model toy_world); [reflexivity|].
  apply NoDup_singleton.
Defined.

Lemma generate_edge_data_assigns_witness :
  exists edge_labels,
    Data.edge_labels
      (set_edge_labels (set_edges toy_graph [(0, 1); (1, 2); (2, 0)]%Z) [0; 1; 1]%Z)
    = Some edge_labels
    /\ length edge_labels = 3%nat
    /\ edge_labels !! 0%nat = Some 0%Z.
Proof.
  destruct (generate_edge_data_assigns quiet toy_graph
              (set_edge_labels (set_edges toy_graph [(0, 1); (1, 2); (2, 0)]%Z) [0; 1; 1]%Z)
              empty_world _ ltac:(vm_compute; reflexivity))
    as (neg & labels & Hneg & _ & Hlabels & Hlen & Hk).
  vm_compute in Hneg. injection Hneg as <-.
  exists labels. split; [exact Hlabels|]. split; [exact Hlen|].
  apply (proj1 (Hk 0%nat)). cbn. lia.
Defined.

(** ** The skeleton of baseline *)

#[local] Instance unmarked_sequential : Sequential unmarked.
Proof.
  split; unfold unmarked; try done.
  - intros A B a l1 o l2 H1 H2. by rewrite omap_app, H1, H2.
  - intros A e l1 l2 H1 H2. by rewrite omap_app, H1, H2.
Qed.

Lemma shape_bind {A B} (m : Py A) (k : A -> Py B)
    (N1 R1 N2 R2 N R : list mark -> Prop) :
  triple m (shape N1 R1) ->
  (forall a, triple (k a) (shape N2 R2)) ->
  (forall s, R1 s -> R s) ->
  (forall s1 s2, N1 s1 -> R2 s2 -> R (s1 ++ s2)%list) ->
  (forall s1 s2, N1 s1 -> N2 s2 -> N (s1 ++ s2)%list) ->
  triple (m ≫= k) (shape N R).
Proof.
  intros Hm Hk HR1 HR2 HN.
  eapply triple_bind with (R := fun _ => shape N2 R2); [exact Hm | exact Hk | |].
  - intros e l. cbn. apply HR1.
  - intros a l1 [b|e] l2 H1 H2; cbn in *; rewrite omap_app; eauto.
Qed.

Lemma steps_bind {A B} (F1 F2 : list mark) (m : Py A) (k : A -> Py B) :
  triple m (steps F1) -> (forall a, triple (k a) (steps F2)) ->
  triple (m ≫= k) (steps (F1 ++ F2)%list).
Proof.
  intros Hm Hk. eapply shape_bind; [exact Hm | exact Hk | | |].
  - intros s Hs. by apply prefix_app_r.
  - intros s1 s2 -> Hs. by apply prefix_app.
  - by intros s1 s2 -> ->.
Qed.

Lemma steps_unmarked {A} (p : Py A) : triple p (unmarked A) -> triple p (steps []).
Proof.
  intros Hp. eapply triple_weaken; [exact Hp|].
  intros [a|e] l Hl; cbn; unfold unmarked in Hl; by rewrite Hl.
Qed.

Lemma marker_raised {A} (c : call A) (e : exception) : marker (Call c (inl e)) = None.
Proof. by destruct c. Qed.

Lemma steps_ext (fw : framework) {A} (c : call A) (F : list mark) :
  (forall a, omap marker [Call c (inr a)] = F) -> triple (ext fw c) (steps F).
Proof.
  intros HF. apply triple_ext. intros [e|a]; unfold steps, shape, of_result.
  - cbn [omap list_omap]. rewrite marker_raised. apply prefix_nil.
  - by rewrite <- (HF a).
Qed.

Section Skeleton.

Variable fw : framework.

Lemma unmarked_Module_call m x edge_index edge_weight edges :
  triple (Module_call fw m x edge_index edge_weight edges) (unmarked tensor).
Proof.
  revert x edges. induction m as [cls kwargs params|model IH]; intros x edges; cbn [Module_call].
  - follow unmarked ltac:(reflexivity).
  - destruct edges as [edges|]; follow unmarked ltac:(reflexivity).
Qed.

Lemma steps_step params : triple (step fw params) (steps [Update]).
Proof.
  unfold step.
  apply (steps_bind [] [Update]); [apply steps_unmarked; follow unmarked ltac:(reflexivity)|].
  intros current.
  apply (steps_bind [Update] []); [by apply steps_ext|]. intros new.
  apply steps_unmarked. follow unmarked ltac:(reflexivity).
Qed.

Ltac quiet_part :=
  apply steps_unmarked;
  first [ apply unmarked_Module_call
        | unfold get_edges, get_edge_labels, get_state_dict, print;
          follow unmarked ltac:(reflexivity) ].

Lemma steps_train_epoch model graph task loss_fn optimizer :
  triple (train_epoch fw model graph task loss_fn optimizer) (steps [Backprop; Update]).
Proof.
  unfold train_epoch.
  apply (steps_bind [] [Backprop; Update]); [quiet_part|]; intros _.
  apply (steps_bind [] [Backprop; Update]); [quiet_part|]; intros _.
  apply (steps_bind [] [Backprop; Update]).
  { apply steps_unmarked. pose proof unmarked_Module_call.
    unfold get_edges, get_edge_labels. follow unmarked ltac:(reflexivity). }
  intros loss.
  apply (steps_bind [Backprop] [Update]); [by apply steps_ext|]; intros _.
  apply (steps_bind [Update] []); [apply steps_step|]; intros _.
  quiet_part.
Qed.

Lemma steps_eval_epoch model graph task :
  triple (eval_epoch fw model graph task) (steps [Evaluate]).
Proof.
  unfold eval_epoch.
  apply (steps_bind [] [Evaluate]); [quiet_part|]; intros _.
  destruct (eq_str task "node_classification");
    [|destruct (eq_str task "link_prediction")].
  - repeat (apply (steps_bind [] [Evaluate]); [quiet_part|]; intros ?).
    by apply steps_ext.
  - repeat (apply (steps_bind [] [Evaluate]); [quiet_part|]; intros ?).
    by apply steps_ext.
  - apply triple_raise. cbn. apply prefix_nil.
Qed.

Lemma steps_epoch_body model graph task loss_fn optimizer epoch acc :
  triple (epoch_body fw model graph task loss_fn optimizer epoch acc) (steps epoch_marks).
Proof.
  unfold epoch_body, epoch_marks.
  apply (steps_bind [Backprop; Update] [Evaluate]); [apply steps_train_epoch|]; intros loss.
  apply (steps_bind [Evaluate] []); [apply steps_eval_epoch|]; intros scores.
  cbv zeta. quiet_part.
Qed.

Lemma steps_for_each model graph task loss_fn optimizer (l : list nat) acc :
  triple (for_each l (epoch_body fw model graph task loss_fn optimizer) acc)
    (steps (concat (replicate (length l) epoch_marks))).
Proof.
  revert acc. induction l as [|epoch l IH]; intros acc; cbn [for_each].
  - apply triple_ret. by cbn.
  - apply (steps_bind epoch_marks (concat (replicate (length l) epoch_marks)));
      [apply steps_epoch_body | intros acc'; apply IH].
Qed.

Lemma shape_baseline model graph task verbose :
  triple (baseline fw model graph task verbose)
    (shape (fun s => s = (Enter :: concat (replicate 200 epoch_marks)
                             ++ [Leave; Restore; Report])%list)
           interrupted).
Proof.
  unfold baseline.
  eapply shape_bind with (N1 := fun s => s = []) (R1 := fun s => s = []);
    [eapply triple_weaken; [apply steps_unmarked; unfold get_state_dict;
                            follow unmarked ltac:(reflexivity)|];
     intros [?|?] l; cbn; [done | apply prefix_nil_inv]
    | | by left | by intros ? ? -> | by intros ? ? ->].
  intros initial_params. cbv zeta.
  eapply shape_bind with (N1 := fun s => s = []) (R1 := fun s => s = []);
    [apply triple_ext; intros [?|?]; by cbn
    | | by left | by intros ? ? -> | by intros ? ? ->].
  intros _.
  eapply shape_bind with
    (N1 := fun s => s = (Enter :: concat (replicate 200 epoch_marks) ++ [Leave])%list)
    (R1 := interrupted)
    (N2 := fun s => s = [Restore; Report]) (R2 := fun s => s = []).
  - eapply triple_with with
      (P := shape (fun s => s = [Enter]) (fun s => s = []))
      (L := fun _ l => omap marker l = [Leave])
      (R := steps (concat (replicate 200 epoch_marks))).
    + apply triple_ext. by intros [?|?].
    + apply (steps_for_each model graph task _ _ epochs).
    + by apply triple_perform.
    + intros e l Hl. by left.
    + intros l1 [acc|e] l2 l3 H1 H2 H3; cbn in *; rewrite !omap_app, H1, H3.
      * by rewrite H2.
      * right. by exists (omap marker l2).
  - intros acc.
    eapply shape_bind with (N1 := fun s => s = [Restore]) (R1 := fun s => s = [])
                           (N2 := fun s => s = [Report]) (R2 := fun _ => False).
    + unfold load_state_dict.
      eapply shape_bind with (N1 := fun s => s = []) (R1 := fun s => s = [])
                             (N2 := fun s => s = [Restore]) (R2 := fun s => s = []).
      * eapply triple_weaken;
          [apply steps_unmarked; unfold copy_; follow unmarked ltac:(reflexivity)|].
        intros [?|?] l; cbn; [done | apply prefix_nil_inv].
      * intros _. apply triple_perform.
        by destruct (same_keys _ _).
      * done.
      * by intros ? ? -> ->.
      * by intros ? ? -> ->.
    + intros _. by apply triple_emit.
    + done.
    + by intros ? ? _ [].
    + by intros ? ? -> ->.
  - done.
  - intros s1 s2 -> ->. right. exists (concat (replicate 200 epoch_marks)).
    split; [done|]. by rewrite app_nil_r.
  - intros s1 s2 -> ->. by rewrite <- app_comm_cons, <- app_assoc.
Qed.

End Skeleton.

(** X4.  A run of [baseline] that ends normally has entered the progress
    bar, run 200 epochs, each one backward pass, then one optimizer step,
    then one evaluation, left the bar, loaded the state dict once and printed
    one report, in this order. *)
Theorem baseline_runs_200_epochs (fw : framework) (model : nn_Module)
    (graph : Data.t) (task : option string) (verbose : bool) (w : world) :
  fst (baseline fw model graph task verbose w) = Normal tt ->
  omap marker (new_events w (snd (baseline fw model graph task verbose w)))
  = (Enter :: concat (replicate 200 [Backprop; Update; Evaluate])
       ++ [Leave; Restore; Report])%list.
Proof.
  intros Hnormal.
  pose proof (triple_run _ _ w (shape_baseline fw model graph task verbose)) as H.
  by rewrite Hnormal in H.
Qed.

Lemma baseline_runs_200_epochs_witness :
  length (omap marker
            (new_events toy_world
               (snd (baseline quiet toy_model toy_graph (Some "node_classification")
                       false toy_world))))
  = 604%nat.
Proof.
  rewrite (baseline_runs_200_epochs quiet toy_model toy_graph
             (Some "node_classification") false toy_world
             ltac:(vm_compute; reflexivity)).
  vm_compute. reflexivity.
Defined.

(** X5.  A run of [baseline] that ends with an exception has either not
    entered the progress bar, or entered it, made the first steps of the 200
    epochs and left it: the bar is closed on every path, and in no case was
    the state dict loaded back or a report printed. *)
Theorem baseline_interrupted (fw : framework) (model : nn_Module)
    (graph : Data.t) (task : option string) (verbose : bool) (w : world)
    (e : raised) :
  fst (baseline fw model graph task verbose w) = Raise e ->
  interrupted (omap marker (new_events w (snd (baseline fw model graph task verbose w))))
  /\ ~ In Restore (omap marker (new_events w (snd (baseline fw model graph task verbose w))))
  /\ ~ In Report (omap marker (new_events w (snd (baseline fw model graph task verbose w)))).
Proof.
  intros Hraise.
  pose proof (triple_run _ _ w (shape_baseline fw model graph task verbose)) as H.
  rewrite Hraise in H. cbn in H. split; [exact H|].
  assert (forall m, In m (omap marker (new_events w (snd (baseline fw model graph task verbose w)))) ->
                    m = Enter \/ m = Leave \/ In m epoch_marks) as Hin.
  { intros m Hm. destruct H as [H|(p & [k Hp] & H)]; rewrite H in Hm; [done|].
    destruct Hm as [<-|Hm]; [by left|]. apply in_app_or in Hm as [Hm|[<-|[]]]; [|by right; left].
    right. right.
    assert (In m (concat (replicate 200 epoch_marks))) as Hc
      by (rewrite Hp; apply in_or_app; by left).
    apply in_concat in Hc as (l & Hl & Hml).
    apply list_elem_of_In, elem_of_replicate_inv in Hl. by subst l. }
  split; intros Hm; apply Hin in Hm as [Hm|[Hm|Hm]]; try discriminate Hm;
    cbn in Hm; intuition discriminate.
Qed.

Lemma baseline_interrupted_witness :
  ~ In Report
      (omap marker
         (new_events toy_world
            (snd (baseline (raising_at 20 "RuntimeError: CUDA out of memory" quiet)
                    toy_model toy_graph (Some "node_classification") false toy_world)))).
Proof.
  apply (baseline_interrupted (raising_at 20 "RuntimeError: CUDA out of memory" quiet)
           toy_model toy_graph (Some "node_classification") false toy_world
           (LibraryError "RuntimeError: CUDA out of memory")
           ltac:(vm_compute; reflexivity)).
Defined.

(** ** An unsupported task and the store *)

Lemma writes_only_perform W {A} (c : call A) (r : exception + A) :
  writes_only W (perform c r).
Proof. intros w. rewrite perform_run. by cbn. Qed.

Lemma writes_only_ext W fw {A} (c : call A) : writes_only W (ext fw c).
Proof. intros w. unfold ext. apply writes_only_perform. Qed.

Lemma gives_up_first {A B} (m : Py A) (k : A -> Py B) : gives_up m -> gives_up (m ≫= k).
Proof.
  intros Hm w. rewrite bind_run. destruct (Hm w) as (Hnever & Hn & Hh).
  destruct (m w) as [[a|e] w1]; cbn in *; [by destruct (Hnever a)|done].
Qed.

Lemma gives_up_after {A B} (m : Py A) (k : A -> Py B) :
  writes_only (fun _ => False) m -> (forall a, gives_up (k a)) -> gives_up (m ≫= k).
Proof.
  intros Hm Hk w. rewrite bind_run. destruct (Hm w) as [Hn Hh].
  assert (heap (snd (m w)) = heap w) as Hheap by (apply map_eq; intros l; apply Hh; intros []).
  destruct (m w) as [[a|e] w1]; cbn in *; [|done].
  destruct (Hk a w1) as (Hnever & Hn' & Hh'). split; [done|]. split; congruence.
Qed.

Lemma gives_up_raise {A} (e : raised) : gives_up (@raise A e).
Proof. by intros w. Qed.

Lemma gives_up_with {A} (enter : Py unit) (c : call unit) (body : Py A) :
  writes_only (fun _ => False) enter -> gives_up body ->
  gives_up (with_ enter (perform c (inr tt)) body).
Proof.
  intros Henter Hbody. unfold with_. apply gives_up_after; [done|]. intros _ w.
  destruct (Hbody w) as (Hnever & Hn & Hh).
  destruct (body w) as [[a|e] w1]; cbn in *; [by destruct (Hnever a)|].
  rewrite bind_run, perform_run. by cbn.
Qed.

Lemma gives_up_baseline (fw : framework) (task : option string) model graph verbose :
  eq_str task "node_classification" = false ->
  eq_str task "link_prediction" = false ->
  gives_up (baseline fw model graph task verbose).
Proof.
  intros Hnc Hlp. unfold baseline, get_state_dict.
  apply gives_up_after; [apply writes_only_perform|]; intros initial_params.
  apply gives_up_after; [apply writes_only_ext|]; intros _.
  apply gives_up_first, gives_up_with; [apply writes_only_ext|].
  change epochs with (0%nat :: seq 1 199). cbn [for_each].
  apply gives_up_first. unfold epoch_body. apply gives_up_first.
  unfold train_epoch. rewrite Hnc, Hlp.
  apply gives_up_after; [apply writes_only_ext|]; intros _.
  apply gives_up_after; [apply writes_only_ext|]; intros _.
  apply gives_up_first, gives_up_raise.
Qed.

(** X7.  For a task that is neither "node_classification" nor
    "link_prediction", [baseline] gives up before anything is computed: the
    run does not end normally and the store, the parameters included, is
    what it was. *)
Theorem unsupported_task_leaves_the_store (fw : framework) (task : option string)
    (model : nn_Module) (graph : Data.t) (verbose : bool) (w : world) :
  task <> Some "node_classification" ->
  task <> Some "link_prediction" ->
  heap (snd (baseline fw model graph task verbose w)) = heap w
  /\ next_loc (snd (baseline fw model graph task verbose w)) = next_loc w
  /\ fst (baseline fw model graph task verbose w) <> Normal tt.
Proof.
  intros Hnc%eq_str_false Hlp%eq_str_false.
  destruct (gives_up_baseline fw task model graph verbose Hnc Hlp w) as (Hnever & Hn & Hh).
  split; [done|]. split; [done|]. apply Hnever.
Qed.

Lemma unsupported_task_leaves_the_store_witness :
  heap (snd (baseline quiet toy_model toy_graph None false toy_world)) = heap toy_world.
Proof.
  apply (unsupported_task_leaves_the_store quiet None toy_model toy_graph false toy_world);
    discriminate.
Defined.

(** ** A model that does not fit the task *)

#[local] Instance before_sequential (key : event -> bool) : Sequential (before key).
Proof.
  split; unfold before.
  - done.
  - intros A B e l. by destruct e.
  - intros A B a l1 o l2 [H1 _] [H2 Ho]. by rewrite existsb_app, H1, H2.
  - intros A e l1 l2 [H1 He] [H2 _]. by rewrite existsb_app, H1, H2.
Qed.

Section Doomed.

Variable key : event -> bool.
Variable err : exception -> list event -> Prop.
Hypothesis err_later : forall e l1 l2, err e l2 -> err e (l1 ++ l2)%list.
Hypothesis err_earlier : forall e l1 l2, err e l1 -> err e (l1 ++ l2)%list.

Lemma doomed_first {A B} (m : Py A) (k : A -> Py B) :
  triple m (doomed key err A) -> triple (m ≫= k) (doomed key err B).
Proof.
  intros Hm w. destruct (Hm w) as (l & Hl & HQ). rewrite bind_run.
  destruct (m w) as [[a|e] w1]; cbn in *; [done|]. by exists l.
Qed.

Lemma doomed_after {A B} (m : Py A) (k : A -> Py B) :
  triple m (before key A) -> (forall a, triple (k a) (doomed key err B)) ->
  triple (m ≫= k) (doomed key err B).
Proof.
  intros Hm Hk. eapply triple_bind with (R := fun _ => doomed key err B);
    [exact Hm | exact Hk | |].
  - intros [msg|e] l [Hl He]; cbn; [done | by right].
  - intros a l1 [b|[msg|e]] l2 [H1 _] H2; cbn in *; try done.
    destruct H2 as [H2|H2]; [left; by apply err_later|].
    right. by rewrite existsb_app, H1, H2.
Qed.

Lemma doomed_with {A} (enter : Py unit) (c : call unit) (body : Py A) :
  key (Call c (inr tt)) = false ->
  triple enter (before key unit) -> triple body (doomed key err A) ->
  triple (with_ enter (perform c (inr tt)) body) (doomed key err A).
Proof.
  intros Hc Henter Hbody.
  eapply triple_with with (P := before key unit) (R := doomed key err A)
                          (L := fun _ l => l = [Call c (inr tt)]);
    [exact Henter | exact Hbody | by apply triple_perform | |].
  - intros [msg|e] l [Hl He]; cbn; [done | by right].
  - intros l1 [a|[msg|e]] l2 l3 [H1 _] H2 ->; cbn in *; try done.
    destruct H2 as [H2|H2]; [left; by apply err_later, err_earlier|]. right.
    rewrite !existsb_app, H1, H2. cbn. by rewrite Hc.
Qed.

End Doomed.

Lemma refusal_later (e : exception) (l1 l2 : list event) :
  refusal e l2 -> refusal e (l1 ++ l2)%list.
Proof. unfold refusal. rewrite omap_app, in_app_iff. by right. Qed.

Lemma refusal_earlier (e : exception) (l1 l2 : list event) :
  refusal e l1 -> refusal e (l1 ++ l2)%list.
Proof. unfold refusal. rewrite omap_app, in_app_iff. by left. Qed.

Ltac before_call := apply triple_ext; intros [?|?]; by split.

(** The call that cannot return: what it raised is in the log. *)
Lemma doomed_failing (fw : framework) {A} (c : call Empty_set) (key : event -> bool) :
  (forall e, refused (Call c (inl e)) = Some e) ->
  triple (@failing fw A c) (doomed key refusal A).
Proof.
  intros Hc w. unfold failing. rewrite bind_run. unfold ext. rewrite perform_run.
  destruct (fw _ c (length (log w))) as [e|[]]. exists [Call c (inl e)].
  split; [done|]. left. unfold refusal. cbn -[refused]. rewrite Hc. by left.
Qed.

Lemma doomed_baseline_without_edges_argument (fw : framework) model graph verbose :
  triple (baseline fw (LinkPredictor model) graph (Some "node_classification") verbose)
    (doomed is_forward refusal unit).
Proof.
  pose proof refusal_later as Hlater. pose proof refusal_earlier as Hearlier.
  unfold baseline, get_state_dict.
  apply doomed_after; [done | by apply triple_perform|]; intros initial_params.
  apply doomed_after; [done | before_call|]; intros _.
  apply doomed_first, doomed_with; [done | done | done | before_call |].
  change epochs with (0%nat :: seq 1 199). cbn [for_each].
  apply doomed_first. unfold epoch_body. apply doomed_first.
  unfold train_epoch.
  apply doomed_after; [done | before_call|]; intros _.
  apply doomed_after; [done | before_call|]; intros _.
  apply doomed_first. cbn [eq_str String.eqb Ascii.eqb Bool.eqb Module_call].
  apply doomed_first, doomed_failing. done.
Qed.

Lemma doomed_baseline_without_edge_data (fw : framework) model graph verbose :
  Data.edges graph = None ->
  triple (baseline fw model graph (Some "link_prediction") verbose)
    (doomed is_get_edges no_edges unit).
Proof.
  intros Hedges.
  assert (forall e l1 l2, no_edges e l2 -> no_edges e (l1 ++ l2)%list) as Hlater by done.
  assert (forall e l1 l2, no_edges e l1 -> no_edges e (l1 ++ l2)%list) as Hearlier by done.
  unfold baseline, get_state_dict.
  apply doomed_after; [done | by apply triple_perform|]; intros initial_params.
  apply doomed_after; [done | before_call|]; intros _.
  apply doomed_first, doomed_with; [done | done | done | before_call |].
  change epochs with (0%nat :: seq 1 199). cbn [for_each].
  apply doomed_first. unfold epoch_body. apply doomed_first.
  unfold train_epoch.
  apply doomed_after; [done | before_call|]; intros _.
  apply doomed_after; [done | before_call|]; intros _.
  apply doomed_first. cbn [eq_str String.eqb Ascii.eqb Bool.eqb].
  apply doomed_first. unfold get_edges. rewrite Hedges.
  apply triple_perform. by left.
Qed.

(** X8.  [baseline] for node classification on a model wrapped in
    [LinkPredictor] cannot train: the first call of the model is made
    without [edges], which [forward] requires, so the run ends with the
    exception that this call raised, unless a library call made before any
    call of the model raised. *)
Theorem node_classification_rejects_a_link_predictor (fw : framework)
    (model : nn_Module) (graph : Data.t) (verbose : bool) (w : world) :
  exists e,
    fst (baseline fw (LinkPredictor model) graph (Some "node_classification") verbose w)
    = Raise (LibraryError e)
    /\ (In e (omap refused
                (new_events w
                   (snd (baseline fw (LinkPredictor model) graph
                           (Some "node_classification") verbose w))))
        \/ existsb is_forward
             (new_events w
                (snd (baseline fw (LinkPredictor model) graph
                        (Some "node_classification") verbose w))) = false).
Proof.
  pose proof (triple_run _ _ w
    (doomed_baseline_without_edges_argument fw model graph verbose)) as H.
  unfold doomed in H.
  destruct (fst (baseline fw (LinkPredictor model) graph _ verbose w))
    as [a|[msg|e]]; try done.
  by exists e.
Qed.

(** X9.  [baseline] for link prediction on a graph to which no edge data
    was added ([generate_edge_data] was not run) cannot train: reading
    [graph.edges] raises AttributeError in the first epoch, unless a library
    call made before that raised. *)
Theorem link_prediction_needs_edge_data (fw : framework) (model : nn_Module)
    (graph : Data.t) (verbose : bool) (w : world) :
  Data.edges graph = None ->
  exists e,
    fst (baseline fw model graph (Some "link_prediction") verbose w)
    = Raise (LibraryError e)
    /\ (e = missing_edges_attribute
        \/ existsb is_get_edges
             (new_events w
                (snd (baseline fw model graph (Some "link_prediction") verbose w))) = false).
Proof.
  intros Hedges.
  pose proof (triple_run _ _ w
    (doomed_baseline_without_edge_data fw model graph verbose Hedges)) as H.
  unfold doomed in H.
  destruct (fst (baseline fw model graph _ verbose w)) as [a|[msg|e]]; try done.
  by exists e.
Qed.

Lemma link_prediction_needs_edge_data_witness :
  exists e,
    fst (baseline quiet (LinkPredictor toy_model) toy_graph (Some "link_prediction")
           false toy_world)
    = Raise (LibraryError e)
    /\ (e = missing_edges_attribute
        \/ existsb is_get_edges
             (new_events toy_world
                (snd (baseline quiet (LinkPredictor toy_model) toy_graph
                        (Some "link_prediction") false toy_world))) = false).
Proof.
  apply (link_prediction_needs_edge_data quiet (LinkPredictor toy_model) toy_graph
           false toy_world).
  reflexivity.
Defined.

(** X10.  [LinkPredictor]s do not nest: a [LinkPredictor] calls the module
    it wraps without [edges], so calling a module that is wrapped twice or
    more, with or without [edges], is one event, a call without [edges] that
    raises: the run ends with that exception and no library model is run. *)
Theorem link_predictors_do_not_nest (fw : framework) (m : nn_Module) (x : tensor)
    (edge_index : edge_tensor) (edge_weight : option tensor)
    (edges : option edge_tensor) (w : world) :
  (2 <= wrappers m)%nat ->
  exists e,
    fst (Module_call fw m x edge_index edge_weight edges w) = Raise (LibraryError e)
    /\ omap refused
         (new_events w (snd (Module_call fw m x edge_index edge_weight edges w)))
       = [e]
    /\ length (new_events w (snd (Module_call fw m x edge_index edge_weight edges w)))
       = 1%nat.
Proof.
  intros Hdepth. destruct m as [|[|m]]; cbn in Hdepth; try lia.
  unfold new_events.
  destruct edges as [edges|]; cbn [Module_call]; unfold failing;
    rewrite ?bind_run; unfold ext; rewrite perform_run.
  - destruct (fw _ (ForwardWithoutEdges (LinkPredictor m) x edge_index edge_weight)
                (length (log w))) as [e|[]].
    exists e. cbn. by rewrite drop_app_length.
  - destruct (fw _ (ForwardWithoutEdges (LinkPredictor (LinkPredictor m)) x edge_index
                      edge_weight) (length (log w))) as [e|[]].
    exists e. cbn. by rewrite drop_app_length.
Qed.

Lemma link_predictors_do_not_nest_witness :
  exists e,
    fst (Module_call quiet (LinkPredictor (LinkPredictor toy_model)) [1]%Q [(0, 1)]%Z None
           (Some [(0, 1)]%Z) toy_world) = Raise (LibraryError e).
Proof.
  destruct (link_predictors_do_not_nest quiet (LinkPredictor (LinkPredictor toy_model))
              [1]%Q [(0, 1)]%Z None (Some [(0, 1)]%Z) toy_world ltac:(cbn; lia))
    as (e & He & _).
  by exists e.
Defined.

(** ** More of the main program *)

(** X11.  The model name is tested late: when the main program ends with
    its ValueError for the model, the dataset has been loaded and, for link
    prediction, the negative edges have been sampled; no model was
    constructed and [GLTSearch] was not called. *)
Theorem model_name_is_tested_late (fw : framework) (argv : list string)
    (args : Namespace.t) :
  fw _ (ParseArgs parser argv) 0%nat = inr args ->
  fst (run (main fw argv)) = Raise model_error ->
  map event_name (log (snd (run (main fw argv))))
  = flow_before_model (eq_str (Namespace.task args) "link_prediction")
  /\ omap constructed (log (snd (run (main fw argv)))) = []
  /\ omap searched (log (snd (run (main fw argv)))) = [].
Proof.
  intros Hargs. unfold_main.
  repeat next_case fw.
  all: cbn [fst snd log]; intros Herror; try discriminate Herror.
  all: by repeat split.
Qed.

Lemma model_name_is_tested_late_witness :
  map event_name
    (log (snd (run (main (all_return (with_model link_prediction_args "sage") (0, 0)%Q) []))))
  = flow_before_model true.
Proof.
  apply (model_name_is_tested_late
           (all_return (with_model link_prediction_args "sage") (0, 0)%Q) []
           (with_model link_prediction_args "sage")
           ltac:(vm_compute; reflexivity) ltac:(vm_compute; reflexivity)).
Defined.

(** X12.  What the command line gives reaches the pruning search: every
    [GLTSearch(...)] call of a run gets the task, the two regularization
    weights, the two pruning rates and the verbosity as parsed, the loss
    function that goes with the task (cross entropy for every task other
    than "link_prediction", also for no task), and the fixed learning rate,
    weight decay, seed, ignored keys and epoch limit; and [prune()] is only
    called on that trainer. *)
Theorem command_line_reaches_the_search (fw : framework) (argv : list string)
    (args : Namespace.t) (kw : GLTSearch.t) :
  fw _ (ParseArgs parser argv) 0%nat = inr args ->
  In kw (omap searched (log (snd (run (main fw argv))))) ->
  (GLTSearch.task kw = Namespace.task args
   /\ GLTSearch.reg_graph kw = Namespace.reg_graph args
   /\ GLTSearch.reg_model kw = Namespace.reg_model args
   /\ GLTSearch.prune_rate_graph kw = Namespace.prune_rate_graph args
   /\ GLTSearch.prune_rate_model kw = Namespace.prune_rate_model args
   /\ GLTSearch.verbose kw = Namespace.verbose args
   /\ GLTSearch.loss_fn kw = loss_for (Namespace.task args))
  /\ (GLTSearch.lr kw = 0.008%Q
      /\ GLTSearch.optim_args kw = [("weight_decay", 0.00008%Q)]
      /\ GLTSearch.seed kw = 1234%Z
      /\ GLTSearch.ignore_keys kw = ["eps"]
      /\ GLTSearch.max_train_epochs kw = 200%Z)
  /\ forall trainer, In trainer (omap pruned (log (snd (run (main fw argv))))) -> trainer = kw.
Proof.
  intros Hargs. unfold loss_for. unfold_main.
  repeat next_case fw.
  all: cbn [fst snd log]; intros Hin; cbn in Hin; try done.
  all: destruct Hin as [<-|[]].
  all: cbn; repeat split; try done.
  all: by intros trainer [<-|[]].
Qed.

Lemma command_line_reaches_the_search_witness :
  GLTSearch.loss_fn toy_trainer = binary_cross_entropy_with_logits
  /\ GLTSearch.reg_graph toy_trainer = 0.001%Q.
Proof.
  destruct (command_line_reaches_the_search
              (all_return link_prediction_args (0, 0)%Q) [] link_prediction_args
              toy_trainer ltac:(vm_compute; reflexivity)
              ltac:(vm_compute; left; reflexivity))
    as ((_ & Hreg & _ & _ & _ & _ & Hloss) & _).
  exact (conj Hloss Hreg).
Defined.

(** ** More of generate_edge_data *)

Lemma generate_edge_data_returns (fw : framework) (dataset dataset' : Data.t)
    (w w' : world) :
  generate_edge_data fw dataset w = (Normal dataset', w') ->
  exists negative_edges,
    dataset'
    = set_edge_labels
        (set_edges dataset (Data.edge_index dataset ++ negative_edges)%list)
        (replicate (length negative_edges) 0%Z
         ++ replicate (length (Data.edge_index dataset)) 1%Z)%list.
Proof.
  unfold generate_edge_data. rewrite bind_run. unfold ext at 1. rewrite perform_run.
  destruct (fw _ (NegativeSampling (Data.edge_index dataset)) (length (log w)))
    as [e|negative_edges]; [done|].
  cbn. intros [= <- <-]. by exists negative_edges.
Qed.

Lemma aligned_labels (n m : nat) :
  aligned n (replicate m 0%Z ++ replicate n 1%Z)%list <-> n = 0%nat \/ m = 0%nat.
Proof.
  unfold aligned. split.
  - intros Haligned. destruct n as [|n]; [by left|]. destruct m as [|m]; [by right|].
    assert ((replicate (S m) 0%Z ++ replicate (S n) 1%Z)%list !! 0%nat = Some 1%Z) as H
      by (apply Haligned; lia).
    done.
  - intros [->| ->] k.
    + rewrite app_nil_r. split; [|lia]. by intros [? _]%lookup_replicate.
    + cbn. rewrite lookup_replicate. intuition.
Qed.

(** X13.  The labels that [generate_edge_data] assigns are aligned with the
    columns of [edges] exactly when the graph has no edge or the sampler
    returned no negative edge. *)
Theorem edge_labels_aligned_iff (fw : framework) (dataset dataset' : Data.t)
    (w w' : world) :
  generate_edge_data fw dataset w = (Normal dataset', w') ->
  exists edges edge_labels,
    Data.edges dataset' = Some edges
    /\ Data.edge_labels dataset' = Some edge_labels
    /\ (aligned (length (Data.edge_index dataset)) edge_labels
        <-> Data.edge_index dataset = [] \/ edges = Data.edge_index dataset).
Proof.
  intros (neg & ->)%generate_edge_data_returns. eexists _, _.
  split; [reflexivity|]. split; [reflexivity|].
  rewrite aligned_labels. rewrite length_zero_iff_nil.
  assert ((Data.edge_index dataset ++ neg)%list = Data.edge_index dataset <-> length neg = 0%nat)
    as ->; [|done].
  rewrite length_zero_iff_nil. split; [|intros ->; by rewrite app_nil_r].
  intros H. apply (app_inv_head (Data.edge_index dataset)). by rewrite app_nil_r.
Qed.

Lemma edge_labels_aligned_iff_witness :
  exists edges edge_labels,
    Data.edges (set_edge_labels (set_edges toy_graph [(0, 1); (1, 2); (2, 0)]%Z) [0; 1; 1]%Z)
    = Some edges
    /\ Data.edge_labels
         (set_edge_labels (set_edges toy_graph [(0, 1); (1, 2); (2, 0)]%Z) [0; 1; 1]%Z)
       = Some edge_labels
    /\ (aligned (length (Data.edge_index toy_graph)) edge_labels
        <-> Data.edge_index toy_graph = [] \/ edges = Data.edge_index toy_graph).
Proof.
  apply (edge_labels_aligned_iff quiet toy_graph _ empty_world
           {| heap := ∅; next_loc := 0;
              log := [Call (NegativeSampling [(0, 1); (1, 2)]%Z) (inr [(2, 0)]%Z);
                      Call (Cat [(0, 1); (1, 2)]%Z [(2, 0)]%Z)
                        (inr [(0, 1); (1, 2); (2, 0)]%Z);
                      Call (NewTensor [0; 1; 1]%Z) (inr [0; 1; 1]%Z)] |}).
  vm_compute. reflexivity.
Defined.

(** X14.  [generate_edge_data] assigns [edges] and [edge_labels] and
    nothing else; run a second time on its own result it builds both again
    from [edge_index] and the new negative edges, so edge data does not pile
    up. *)
Theorem generate_edge_data_twice (fw : framework) (d d1 d2 : Data.t) (w w1 w2 : world) :
  generate_edge_data fw d w = (Normal d1, w1) ->
  generate_edge_data fw d1 w1 = (Normal d2, w2) ->
  (Data.x d1 = Data.x d /\ Data.edge_index d1 = Data.edge_index d
   /\ Data.edge_weight d1 = Data.edge_weight d /\ Data.y d1 = Data.y d
   /\ Data.train_mask d1 = Data.train_mask d /\ Data.val_mask d1 = Data.val_mask d
   /\ Data.test_mask d1 = Data.test_mask d)
  /\ exists negative_edges,
       d2 = set_edge_labels
              (set_edges d (Data.edge_index d ++ negative_edges)%list)
              (replicate (length negative_edges) 0%Z
               ++ replicate (length (Data.edge_index d)) 1%Z)%list.
Proof.
  intros (neg1 & ->)%generate_edge_data_returns (neg2 & ->)%generate_edge_data_returns.
  split; [done|]. by exists neg2.
Qed.

Lemma generate_edge_data_twice_witness :
  exists negative_edges,
    set_edge_labels (set_edges toy_graph [(0, 1); (1, 2); (2, 0)]%Z) [0; 1; 1]%Z
    = set_edge_labels
        (set_edges toy_graph (Data.edge_index toy_graph ++ negative_edges)%list)
        (replicate (length negative_edges) 0%Z
         ++ replicate (length (Data.edge_index toy_graph)) 1%Z)%list.
Proof.
  refine (proj2 (generate_edge_data_twice quiet toy_graph _ _ empty_world _ _ _ _)).
  - vm_compute. reflexivity.
  - vm_compute. reflexivity.
Defined.

(** ** More of baseline *)

(** X15.  When [baseline] returns and some validation score exceeded 0.0,
    the test score it reports belongs to an epoch whose validation score no
    validation score of the run exceeds, and to the first epoch that reached
    this score: every earlier validation score is NaN or strictly smaller. *)
Theorem reported_epoch_has_the_best_validation_score (fw : framework)
    (model : nn_Module) (graph : Data.t) (task : option string) (verbose : bool)
    (w : world) :
  fst (baseline fw model graph task verbose w) = Normal tt ->
  (exists j s',
      omap scored (new_events w (snd (baseline fw model graph task verbose w))) !! j
      = Some s' /\ exceeds (fst s') 0) ->
  exists k s,
    omap scored (new_events w (snd (baseline fw model graph task verbose w))) !! k = Some s
    /\ last (new_events w (snd (baseline fw model graph task verbose w)))
       = Some (Print [PyStr "[BASELINE] Final test performance:"; PyFloat (snd s)])
    /\ (forall j s',
           omap scored (new_events w (snd (baseline fw model graph task verbose w))) !! j
           = Some s' -> ~ exceeds (fst s') (fst s))
    /\ (forall j s',
           (j < k)%nat ->
           omap scored (new_events w (snd (baseline fw model graph task verbose w))) !! j
           = Some s' -> fst s' = NaN \/ exceeds (fst s) (fst s')).
Proof.
  intros Hnormal (j & s' & Hj & Hpos%gt_exceeds).
  pose proof (triple_run _ _ w (scores_baseline fw model graph task verbose)) as H.
  rewrite Hnormal in H. destruct H as [_ Hlast].
  set (scores := omap scored _) in *.
  destruct (after_epochs_spec scores)
    as (_ & Hbound & [[_ Hnone]|(k & s & [Hrec _] & Hk & _ & Hacc)]).
  { rewrite (Hnone j s' Hj) in Hpos. discriminate Hpos. }
  exists k, s. rewrite Hacc in Hlast, Hbound. split; [done|]. split; [done|].
  split; [intros j0 s0 Hj0; by apply gt_not_exceeds, (Hbound j0)|].
  destruct Hrec as (s0 & Hs0 & _ & Hbelow).
  rewrite Hk in Hs0. injection Hs0 as <-. exact Hbelow.
Qed.

Lemma reported_epoch_has_the_best_validation_score_witness :
  exists k s,
    omap scored
      (new_events toy_world
         (snd (baseline quiet toy_model toy_graph (Some "node_classification") false
                 toy_world))) !! k
    = Some s
    /\ last (new_events toy_world
               (snd (baseline quiet toy_model toy_graph (Some "node_classification") false
                       toy_world)))
       = Some (Print [PyStr "[BASELINE] Final test performance:"; PyFloat (snd s)]).
Proof.
  destruct (reported_epoch_has_the_best_validation_score quiet toy_model toy_graph
              (Some "node_classification") false toy_world
              ltac:(vm_compute; reflexivity)
              ltac:(exists 0%nat, (Finite 0.5, Finite 0.25); vm_compute; split; reflexivity))
    as (k & s & Hk & Hlast & _).
  exists k, s. exact (conj Hk Hlast).
Defined.

#[local] Instance uses_loss_sequential (f : loss_function) : Sequential (uses_loss f).
Proof.
  split; unfold uses_loss; try done.
  - intros A B a l1 o l2 H1 H2 g. rewrite omap_app, in_app_iff. intros [?|?]; eauto.
  - intros A e l1 l2 H1 H2 g. rewrite omap_app, in_app_iff. intros [?|?]; eauto.
Qed.

Ltac loss_atom :=
  let Hg := fresh "Hg" in unfold uses_loss; intros ? Hg; cbn in Hg; intuition congruence.

Lemma uses_loss_Module_call fw f m x edge_index edge_weight edges :
  triple (Module_call fw m x edge_index edge_weight edges) (uses_loss f tensor).
Proof.
  revert x edges. induction m as [cls kwargs params|model IH]; intros x edges; cbn [Module_call].
  - follow (uses_loss f) ltac:(loss_atom).
  - destruct edges as [edges|]; follow (uses_loss f) ltac:(loss_atom).
Qed.

Lemma uses_loss_baseline fw model graph task verbose :
  triple (baseline fw model graph task verbose) (uses_loss (loss_for task) unit).
Proof.
  pose proof (uses_loss_Module_call fw (loss_for task)).
  unfold baseline, epoch_body, train_epoch, eval_epoch, step, load_state_dict, copy_,
    get_state_dict, get_edges, get_edge_labels, print.
  cbv zeta. fold (loss_for task).
  follow (uses_loss (loss_for task)) ltac:(loss_atom).
Qed.

(** X16.  Every loss that [baseline] computes uses the loss function that
    goes with its task (lines 47-50): binary cross entropy with logits for
    "link_prediction", cross entropy otherwise. *)
Theorem baseline_uses_the_loss_of_the_task (fw : framework) (model : nn_Module)
    (graph : Data.t) (task : option string) (verbose : bool) (w : world)
    (f : loss_function) :
  In f (omap loss_of (new_events w (snd (baseline fw model graph task verbose w)))) ->
  f = loss_for task.
Proof.
  intros Hf.
  by apply (triple_run _ _ w (uses_loss_baseline fw model graph task verbose)) in Hf.
Qed.

Lemma baseline_uses_the_loss_of_the_task_witness :
  cross_entropy = loss_for (Some "node_classification").
Proof.
  apply (baseline_uses_the_loss_of_the_task quiet toy_model toy_graph
           (Some "node_classification") false toy_world cross_entropy).
  vm_compute. left. reflexivity.
Defined.

(** ** What baseline leaves in the parameters *)

Section Tracks.

Variable params : list loc.

Lemma tracks_ret {A} (a : A) : tracks params (ret a).
Proof. intros w. exists []. cbn. by rewrite app_nil_r. Qed.

Lemma tracks_raise {A} (e : raised) : tracks params (@raise A e).
Proof. intros w. exists []. cbn. by rewrite app_nil_r. Qed.

Lemma tracks_emit (ev : event) : stepped ev = None -> tracks params (emit ev).
Proof. intros Hev w. exists [ev]. cbn. by rewrite Hev. Qed.

Lemma tracks_perform {A} (c : call A) (r : exception + A) :
  stepped (Call c r) = None -> tracks params (perform c r).
Proof. intros Hev w. exists [Call c r]. rewrite perform_run. cbn -[stepped]. by rewrite Hev. Qed.

Lemma tracks_ext fw {A} (c : call A) :
  (forall r, stepped (Call c r) = None) -> tracks params (ext fw c).
Proof. intros Hc w. unfold ext. by apply tracks_perform. Qed.

Lemma tracks_read (l : loc) : tracks params (read l).
Proof. intros w. exists []. cbn. by rewrite app_nil_r. Qed.

Lemma tracks_bind {A B} (m : Py A) (k : A -> Py B) :
  tracks params m -> (forall a, tracks params (k a)) -> tracks params (m ≫= k).
Proof.
  intros Hm Hk w. rewrite bind_run. destruct (Hm w) as (l1 & Hl1 & H1).
  destruct (m w) as [[a|e] w1]; cbn in *; [|by exists l1].
  destruct (Hk a w1) as (l2 & Hl2 & H2).
  exists (l1 ++ l2)%list. split; [by rewrite Hl2, Hl1, app_assoc|].
  rewrite omap_app.
  destruct (omap stepped l2) as [|new2 s2] eqn:E2 using rev_ind.
  - rewrite app_nil_r. cbn in H2. rewrite H2. exact H1.
  - clear IHs2. rewrite last_snoc in H2. by rewrite app_assoc, last_snoc.
Qed.

Lemma tracks_with {A} (enter : Py unit) (c : call unit) (body : Py A) :
  stepped (Call c (inr tt)) = None ->
  tracks params enter -> tracks params body ->
  tracks params (with_ enter (perform c (inr tt)) body).
Proof.
  intros Hc Henter Hbody. unfold with_. apply tracks_bind; [done|]. intros _ w.
  destruct (Hbody w) as (l & Hl & H).
  exists (l ++ [Call c (inr tt)])%list.
  assert (last (omap stepped (l ++ [Call c (inr tt)])%list) = last (omap stepped l)) as ->.
  { rewrite omap_app. cbn [omap list_omap]. by rewrite Hc, app_nil_r. }
  destruct (body w) as [[a|e] w1]; cbn [fst snd] in *;
    rewrite bind_run, perform_run; cbn [of_result fst snd heap log];
    (split; [by rewrite Hl, app_assoc | exact H]).
Qed.

Lemma tracks_mapM {A B} (f : A -> Py B) (l : list A) :
  (forall a, tracks params (f a)) -> tracks params (mapM f l).
Proof.
  intros Hf. induction l as [|a l IH]; cbn [mapM]; [apply tracks_ret|].
  apply tracks_bind; [done|]. intros b.
  apply tracks_bind; [done|]. intros bs. apply tracks_ret.
Qed.

Lemma tracks_for_each {A S} (l : list A) (body : A -> S -> Py S) (acc : S) :
  (forall a s, tracks params (body a s)) -> tracks params (for_each l body acc).
Proof.
  intros Hbody. revert acc. induction l as [|a l IH]; intros acc; cbn [for_each];
    [apply tracks_ret|].
  apply tracks_bind; [done|]. intros acc'. apply IH.
Qed.

End Tracks.

(** Follows a program whose calls are not optimizer steps and that writes
    nothing itself. *)
Ltac follow_tracks :=
  repeat first
    [ progress intros
    | progress cbv zeta
    | match goal with H : _ |- tracks _ _ => apply H end
    | apply tracks_with; [reflexivity | | ]
    | apply tracks_ext; intros [?|?]; reflexivity
    | apply tracks_perform; reflexivity
    | apply tracks_mapM
    | apply tracks_for_each
    | apply tracks_bind
    | apply tracks_emit; reflexivity
    | apply tracks_ret
    | apply tracks_raise
    | apply tracks_read
    | match goal with
      | |- tracks _ (if ?b then _ else _) => destruct b
      | |- tracks _ (match ?x with _ => _ end) => destruct x
      end ].

Lemma mapM_read (ls : list loc) (w : world) : snd (mapM read ls w) = w.
Proof.
  induction ls as [|l ls IH]; [done|]. cbn [mapM].
  rewrite bind_run. unfold read at 1. rewrite bind_run.
  by destruct (mapM read ls w) as [[vs|e] w1].
Qed.

(** Writing the new values, one location after the other. *)
Lemma write_all (params : list loc) (new : list tensor) (w : world) :
  NoDup params ->
  fst (for_each (zip params new) (fun lv _ => write (fst lv) (snd lv)) tt w) = Normal tt
  /\ log (snd (for_each (zip params new) (fun lv _ => write (fst lv) (snd lv)) tt w)) = log w
  /\ holds params new
       (heap (snd (for_each (zip params new) (fun lv _ => write (fst lv) (snd lv)) tt w)))
  /\ forall l, ~ In l params ->
       heap (snd (for_each (zip params new) (fun lv _ => write (fst lv) (snd lv)) tt w)) !! l
       = heap w !! l.
Proof.
  intros Hnodup. revert new w.
  induction params as [|l params IH]; intros new w.
  { cbn. repeat split; done. }
  apply NoDup_cons in Hnodup as [Hfresh Hnodup].
  destruct new as [|v new].
  { cbn. repeat split; done. }
  cbn [zip zip_with for_each]. rewrite bind_run. unfold write at 1. cbn [fst snd].
  destruct (IH Hnodup new
              {| heap := <[l:=v]> (heap w); next_loc := next_loc w; log := log w |})
    as (Hnormal & Hlog & Hholds & Hother).
  split; [done|]. split; [done|]. split.
  - intros [|i] l' v' Hl' Hv'; cbn in *.
    + injection Hl' as <-. injection Hv' as <-.
      rewrite Hother by (by intros ?%list_elem_of_In). apply lookup_insert_eq.
    + by eapply Hholds.
  - intros l' Hl'. rewrite Hother by (intros ?; apply Hl'; by right).
    apply lookup_insert_ne. intros ->. apply Hl'. by left.
Qed.

Section TracksBaseline.

Variable fw : framework.
Variable model : nn_Module.
Hypothesis distinct_names : NoDup (map fst (named_parameters model)).
Hypothesis distinct_tensors : NoDup (parameters model).

Lemma tracks_Module_call m x edge_index edge_weight edges :
  tracks (parameters model) (Module_call fw m x edge_index edge_weight edges).
Proof.
  revert x edges. induction m as [cls kwargs ps|m IH]; intros x edges; cbn [Module_call].
  - follow_tracks.
  - destruct edges as [edges|]; follow_tracks.
Qed.

Lemma tracks_step : tracks (parameters model) (step fw (parameters model)).
Proof.
  intros w. unfold step. rewrite bind_run.
  pose proof (mapM_read (parameters model) w) as Hread.
  destruct (mapM read (parameters model) w) as [[current|e] w1]; cbn in Hread; subst w1.
  2: { exists []. cbn. by rewrite app_nil_r. }
  rewrite bind_run. unfold ext. rewrite perform_run.
  destruct (fw _ (Step current) (length (log w))) as [e|new]; cbn [of_result].
  { exists [Call (Step current) (inl e)]. by cbn. }
  destruct (write_all (parameters model) new
              {| heap := heap w; next_loc := next_loc w;
                 log := (log w ++ [Call (Step current) (inr new)])%list |}
              distinct_tensors) as (_ & Hlog & Hholds & _).
  exists [Call (Step current) (inr new)]. split; [exact Hlog|]. exact Hholds.
Qed.

Lemma tracks_load_own_state_dict :
  tracks (parameters model) (load_state_dict model (named_parameters model)).
Proof.
  intros w. unfold load_state_dict. rewrite bind_run.
  assert (forall l, (forall kv, In kv l -> In kv (named_parameters model)) ->
            for_each l (copy_ (named_parameters model)) tt w = (Normal tt, w)) as Hloop.
  { induction l as [|kv l IH]; intros Hl; [done|]. cbn [for_each].
    rewrite bind_run, copy_own; [apply IH|apply find_param_own]; try done.
    - intros kv' Hkv'. apply Hl. by right.
    - apply Hl. by left. }
  rewrite Hloop by done. rewrite perform_run.
  eexists [_]. by cbn.
Qed.

Lemma tracks_baseline graph task verbose :
  tracks (parameters model) (baseline fw model graph task verbose).
Proof.
  intros w. unfold baseline, get_state_dict. rewrite bind_run, perform_run. cbn [of_result].
  pose proof tracks_Module_call. pose proof tracks_step.
  pose proof tracks_load_own_state_dict.
  match goal with
  | |- context [?k {| heap := heap w; next_loc := next_loc w; log := ?lg |}] =>
      assert (tracks (parameters model) k) as Hrest
  end.
  { unfold epoch_body, train_epoch, eval_epoch, get_edges, get_edge_labels, print.
    follow_tracks. }
  destruct (Hrest {| heap := heap w; next_loc := next_loc w;
                     log := (log w ++ [Call (StateDict model) (inr (named_parameters model))])%list |})
    as (l & Hl & Hend).
  exists (Call (StateDict model) (inr (named_parameters model)) :: l).
  split; [rewrite Hl; cbn [log]; by rewrite <- app_assoc | exact Hend].
Qed.

End TracksBaseline.

Lemma stepped_update (ev : event) : is_Some (stepped ev) <-> marker ev = Some Update.
Proof.
  destruct ev as [A c r|args].
  - destruct c, r; cbn; split; intros H; first [done | by destruct H | by eexists].
  - cbn [stepped]. split; [by intros [? ?]|]. intros H. exfalso.
    destruct args as [|[] [|[] [|]]]; cbn in H; try done.
    by destruct (String.eqb _ _).
Qed.

Lemma count_steps (l : list event) :
  length (omap stepped l)
  = length (filter (fun m => m = Update) (omap marker l)).
Proof.
  induction l as [|ev l IH]; [done|]. cbn [omap list_omap].
  pose proof (stepped_update ev) as Hev.
  destruct (stepped ev) as [new|] eqn:Es.
  - rewrite (proj1 Hev) by by eexists. rewrite filter_cons_True by done. cbn. by rewrite IH.
  - destruct (marker ev) as [m|] eqn:Em; [|done].
    rewrite filter_cons_False; [done|]. intros ->. by destruct (proj2 Hev eq_refl).
Qed.

(** X17.  What [baseline] leaves in the parameters (distinct tensors with
    distinct names): the values that the last optimizer step returned, and
    the values of entry only if no step returned.  A run that ends normally
    has made 200 steps, so the parameters then hold the result of the 200th
    step. *)
Theorem baseline_leaves_the_last_step (fw : framework) (model : nn_Module)
    (graph : Data.t) (task : option string) (verbose : bool) (w : world) :
  NoDup (map fst (named_parameters model)) ->
  NoDup (parameters model) ->
  match last (omap stepped
                (new_events w (snd (baseline fw model graph task verbose w)))) with
  | Some new =>
      holds (parameters model) new (heap (snd (baseline fw model graph task verbose w)))
  | None => heap (snd (baseline fw model graph task verbose w)) = heap w
  end
  /\ (fst (baseline fw model graph task verbose w) = Normal tt ->
      length (omap stepped
                (new_events w (snd (baseline fw model graph task verbose w))))
      = 200%nat).
Proof.
  intros Hnames Htensors. split.
  - destruct (tracks_baseline fw model Hnames Htensors graph task verbose w)
      as (l & Hl & H).
    unfold new_events. by rewrite Hl, drop_app_length.
  - intros Hnormal. rewrite count_steps.
    pose proof (triple_run _ _ w (shape_baseline fw model graph task verbose)) as H.
    rewrite Hnormal in H. cbn in H. rewrite H. by vm_compute.
Qed.

Lemma baseline_leaves_the_last_step_witness :
  length (omap stepped
            (new_events toy_world
               (snd (baseline quiet toy_model toy_graph (Some "node_classification")
                       false toy_world))))
  = 200%nat.
Proof.
  assert (Hn : NoDup (map fst (named_parameters toy_model)))
    by (vm_compute; apply NoDup_singleton).
  assert (Hp : NoDup (parameters toy_model))
    by (vm_compute; apply NoDup_singleton).
  assert (Hr : fst (baseline quiet toy_model toy_graph (Some "node_classification")
                      false toy_world) = Normal tt)
    by (vm_compute; reflexivity).
  pose proof (baseline_leaves_the_last_step quiet toy_model toy_graph
                  (Some "node_classification") false toy_world Hn Hp) as H.
  destruct H as [_ H].
  exact (H Hr).
Defined.
